(** * gopro-connection: camera download and Box upload script

    A shallow embedding of [test1.py]: the [Box] class (credential
    resolution, the two upload helpers, the size-based router and the bulk
    traversal) and the camera [main] coroutine.

    The script is a sequence of calls into the operating system and two
    vendor SDKs.  Those are modelled as an abstract world: every external
    call is a deterministic function of an opaque world state [W] that
    returns either a value or a Python exception together with the next
    world state.  The program itself is written in a small monad that threads
    the world, propagates exceptions and records every external call and
    every [print] in an event trace. *)

From Stdlib Require Import ZArith List String Ascii Bool Lia.
Import ListNotations.

Open Scope string_scope.
Open Scope Z_scope.

(** ** Python values *)

(** The values the script passes around as names, folder ids and
    credentials are either [None] or a [str]. *)
Inductive value : Type :=
  | VNone
  | VStr (s : string).

(** Truth value testing: [None] and the empty string are false. *)
Definition truthy (v : value) : bool :=
  match v with
  | VNone => false
  | VStr s => negb (String.eqb s "")
  end.

(** [a or b]. *)
Definition py_or (a b : value) : value :=
  if truthy a then a else b.

(** [str(v)], as an f-string field renders it. *)
Definition str (v : value) : string :=
  match v with
  | VNone => "None"
  | VStr s => s
  end.

(** An argument with a default is [None] when the call site omits it. *)
Definition arg_or {A : Type} (default : A) (a : option A) : A :=
  match a with
  | Some x => x
  | None => default
  end.

(** Instances of [Exception]: what the OS, the network and the SDKs raise
    and what [except Exception] catches.  [exn_message] is [str(e)]. *)
Record exn : Type := Exception { exn_message : string }.

Inductive result (A : Type) : Type :=
  | Ok (a : A)
  | Raise (e : exn).
Arguments Ok {A} a.
Arguments Raise {A} e.

(** The uploaded-file descriptor returned by the storage SDK; the script
    reads its [name] and [id]. *)
Record descriptor : Type := Descriptor { desc_name : string; desc_id : string }.

(** ** Paths *)

Definition sep : ascii := "/"%char.

Fixpoint contains_sep (p : string) : bool :=
  match p with
  | EmptyString => false
  | String c r => Ascii.eqb c sep || contains_sep r
  end.

(** [os.path.basename]: everything after the last separator. *)
Fixpoint basename (p : string) : string :=
  match p with
  | EmptyString => EmptyString
  | String c r =>
      if Ascii.eqb c sep then basename r
      else if contains_sep r then basename r
      else p
  end.

Fixpoint ends_with_sep (p : string) : bool :=
  match p with
  | EmptyString => false
  | String c EmptyString => Ascii.eqb c sep
  | String _ r => ends_with_sep r
  end.

Definition starts_with_sep (p : string) : bool :=
  match p with
  | String c _ => Ascii.eqb c sep
  | EmptyString => false
  end.

(** [os.path.join(a, b)] (posixpath). *)
Definition os_path_join (a b : string) : string :=
  if starts_with_sep b then b
  else if String.eqb a "" || ends_with_sep a then a ++ b
  else a ++ String sep b.

(** [s.split("/")]: never empty, the pieces between separators. *)
Fixpoint split_sep (s : string) : list string :=
  match s with
  | EmptyString => [EmptyString]
  | String c r =>
      if Ascii.eqb c sep then EmptyString :: split_sep r
      else match split_sep r with
           | h :: t => String c h :: t
           | [] => [String c EmptyString]
           end
  end.

(** [l[-1]] on a list of strings. *)
Definition last_piece (l : list string) : string := last l EmptyString.

(** ** Directory trees and [os.walk] *)

(** A directory entry is a directory with named entries or anything else
    (a file). *)
#[local] Unset Elimination Schemes.
Inductive tree : Type :=
  | File
  | Dir (entries : list (string * tree)).
#[local] Set Elimination Schemes.

Definition is_dir (t : tree) : bool :=
  match t with
  | Dir _ => true
  | File => false
  end.

Definition dirnames (es : list (string * tree)) : list string :=
  map fst (filter (fun e => is_dir (snd e)) es).

Definition filenames (es : list (string * tree)) : list string :=
  map fst (filter (fun e => negb (is_dir (snd e))) es).

(** [os.walk(top)], top-down: the triple of the directory itself, then the
    walk of each subdirectory in turn.  A [top] that is not a directory
    yields nothing (the listing error is ignored). *)
Fixpoint os_walk (top : string) (t : tree)
  : list (string * list string * list string) :=
  match t with
  | File => []
  | Dir es =>
      (top, dirnames es, filenames es) ::
      (fix walk_entries (l : list (string * tree)) :=
         match l with
         | [] => []
         | (n, c) :: l' =>
             ((if is_dir c then os_walk (os_path_join top n) c else [])
              ++ walk_entries l')%list
         end) es
  end.

(** Number of files in a tree, at any depth. *)
Fixpoint count_files (t : tree) : nat :=
  match t with
  | File => 1%nat
  | Dir es =>
      (fix count_entries (l : list (string * tree)) :=
         match l with
         | [] => 0%nat
         | (_, c) :: l' => (count_files c + count_entries l')%nat
         end) es
  end.

(** ** Camera manifest *)

Record media_item : Type := MediaItem { filename : string }.
Record media_group : Type := MediaGroup { file_system : list media_item }.

(** ** Events *)

(** The [print] calls of the script, one constructor per format string. *)
Inductive message : Type :=
  | MsgAuthenticated
  | MsgAuthError (e : exn)
  | MsgClient
  | MsgFailedUpload (file_path : string) (e : exn)
  | MsgErrorUploading (file_name : value) (e : exn)
  | MsgUploadingSmall (source_file_path : string)
  | MsgUploaded (name id : string)
  | MsgUploading (file_path : string)
  | MsgConnected
  | MsgDownloading (path local_name : string)
  | MsgDownloaded (local_name : string)
  | MsgDeleting
  | MsgAllDeleted.

Definition render (m : message) : string :=
  match m with
  | MsgAuthenticated => "Authenticated with Box using CCG flow."
  | MsgAuthError e => "Error during authentication: " ++ exn_message e
  | MsgClient => "self.client = <BoxClient>"
  | MsgFailedUpload p e =>
      "Failed to upload file '" ++ p ++ "': " ++ exn_message e
  | MsgErrorUploading n e =>
      "Error uploading file '" ++ str n ++ "': " ++ exn_message e
  | MsgUploadingSmall p => "Uploading small file '" ++ p ++ "' to Box..."
  | MsgUploaded n i => "Uploaded file '" ++ n ++ "' to Box with ID: " ++ i
  | MsgUploading p => "Uploading '" ++ p ++ "' to Box..."
  | MsgConnected => "Connected to GoPro"
  | MsgDownloading p l => "Downloading " ++ p ++ " to " ++ l ++ "..."
  | MsgDownloaded l => "Downloaded " ++ l
  | MsgDeleting => "Deleting all media on camera..."
  | MsgAllDeleted => "All media deleted from camera."
  end.

(** Every external call, with its arguments and its outcome. *)
Inductive event : Type :=
  | EPrint (m : message)
  | EGetSize (path : string) (r : result Z)
  | EOpen (path mode : string) (r : result unit)
  | EClose (path : string)
  | EWalk (top : string)
  | EUploadFile (name parent : value) (file : string) (r : result descriptor)
  | EUploadBigFile (file : string) (file_name : value) (file_size : Z)
      (parent_folder_id : value) (r : result descriptor)
  | ECCGAuth (client_id client_secret enterprise_id : value) (r : result unit)
  | EGoProOpen (r : result unit)
  | EGoProClose
  | EGetMediaList (r : result (list media_group))
  | EDownloadFile (camera_file local_file : string) (r : result unit)
  | EDeleteAll (r : result unit).

(** ** The world *)

(** The operating system, the storage SDK and the camera SDK, as seen by
    the script. *)
Class World (W : Type) : Type := {
  (* os.path.getsize(path) *)
  w_getsize : string -> W -> result Z * W;
  (* open(path, mode) *)
  w_open : string -> string -> W -> result unit * W;
  (* the directory tree at a path, if it is a directory *)
  w_tree : string -> W -> option tree;
  (* client.uploads.upload_file(UploadFileAttributes(name, parent), file) *)
  w_upload_file : value -> value -> string -> W -> result descriptor * W;
  (* client.chunked_uploads.upload_big_file(file, file_name, file_size,
     parent_folder_id) *)
  w_upload_big_file :
    string -> value -> Z -> value -> W -> result descriptor * W;
  (* BoxClient(BoxCCGAuth(CCGConfig(client_id, client_secret,
     enterprise_id))) *)
  w_ccg_auth : value -> value -> value -> W -> result unit * W;
  (* WirelessGoPro().__aenter__() *)
  w_gopro_open : W -> result unit * W;
  (* WirelessGoPro().__aexit__() *)
  w_gopro_close : W -> W;
  (* gopro.http_command.get_media_list(), then .data.media *)
  w_get_media_list : W -> result (list media_group) * W;
  (* gopro.http_command.download_file(camera_file, local_file) *)
  w_download_file : string -> string -> W -> result unit * W;
  (* gopro.http_command.delete_all() *)
  w_delete_all : W -> result unit * W
}.

(** ** The monad *)

Open Scope list_scope.

Section Program.

Context {W : Type} {world : World W}.

(** A computation runs in a world and gives a result or an exception, the
    next world and the events it emitted. *)
Definition M (A : Type) : Type := W -> result A * W * list event.

Definition ret {A : Type} (a : A) : M A := fun w => (Ok a, w, []).

Definition raise {A : Type} (e : exn) : M A := fun w => (Raise e, w, []).

Definition bind {A B : Type} (m : M A) (f : A -> M B) : M B :=
  fun w =>
    match m w with
    | (Ok a, w1, t1) =>
        match f a w1 with
        | (r, w2, t2) => (r, w2, t1 ++ t2)
        end
    | (Raise e, w1, t1) => (Raise e, w1, t1)
    end.

(** [try: m except Exception as e: h e] *)
Definition try_except {A : Type} (m : M A) (h : exn -> M A) : M A :=
  fun w =>
    match m w with
    | (Ok a, w1, t1) => (Ok a, w1, t1)
    | (Raise e, w1, t1) =>
        match h e w1 with
        | (r, w2, t2) => (r, w2, t1 ++ t2)
        end
    end.

(** [try: m finally: c], for a cleanup [c] that does not raise. *)
Definition finally {A : Type} (m : M A) (c : M unit) : M A :=
  fun w =>
    match m w with
    | (r, w1, t1) =>
        match c w1 with
        | (_, w2, t2) => (r, w2, t1 ++ t2)
        end
    end.

(** An external call: run it on the world and record it. *)
Definition call {A : Type} (op : W -> result A * W) (ev : result A -> event)
  : M A :=
  fun w =>
    match op w with
    | (r, w1) => (r, w1, [ev r])
    end.

Definition emit (ev : event) : M unit := fun w => (Ok tt, w, [ev]).

Definition print (m : message) : M unit := emit (EPrint m).

End Program.

Declare Scope prog_scope.
Delimit Scope prog_scope with prog.
Notation "x <- m ;; k" := (bind m (fun x => k))
  (at level 61, m at next level, right associativity) : prog_scope.
Notation "m ;; k" := (bind m (fun _ => k))
  (at level 61, right associativity) : prog_scope.
Open Scope prog_scope.

Section Program.

Context {W : Type} {world : World W}.

(** [for x in l: body x] *)
Fixpoint for_each {A : Type} (l : list A) (body : A -> M (W:=W) unit)
  : M (W:=W) unit :=
  match l with
  | [] => ret tt
  | x :: l' => body x ;; for_each l' body
  end.

(** ** External calls *)

Definition os_path_getsize (path : string) : M Z :=
  call (w_getsize path) (EGetSize path).

(** [with open(path, mode) as file: body file]: the file is closed on the
    way out, whether [body] returns or raises. *)
Definition with_open {A : Type} (path mode : string) (body : string -> M A)
  : M A :=
  call (w_open path mode) (EOpen path mode) ;;
  finally (body path) (emit (EClose path)).

Definition uploads_upload_file (name parent : value) (file : string)
  : M descriptor :=
  call (w_upload_file name parent file) (EUploadFile name parent file).

Definition chunked_uploads_upload_big_file (file : string) (file_name : value)
  (file_size : Z) (parent_folder_id : value) : M descriptor :=
  call (w_upload_big_file file file_name file_size parent_folder_id)
       (EUploadBigFile file file_name file_size parent_folder_id).

Definition walk (top : string) : M (list (string * list string * list string)) :=
  fun w =>
    (Ok (match w_tree top w with
         | Some t => os_walk top t
         | None => []
         end), w, [EWalk top]).

(** ** Module globals *)

(** The process environment: [os.getenv(name)] is [None] for a variable
    that is not set. *)
Definition environ : Type := string -> value.

Definition BOX_DEV_TOKEN (getenv : environ) : value := getenv "BOX_DEV_TOKEN".
Definition BOX_CLIENT_ID (getenv : environ) : value := getenv "BOX_CLIENT_ID".
Definition BOX_CLIENT_SECRET (getenv : environ) : value :=
  getenv "BOX_CLIENT_SECRET".
Definition BOX_ENTERPRISE_ID (getenv : environ) : value :=
  getenv "BOX_ENTERPRISE_ID".

(** ** class Box *)

(** The attributes of a [Box] instance; [client] is [None] until
    [authenticate] has run. *)
Record Box : Type := {
  client_id : value;
  client_secret : value;
  enterprise_id : value;
  client : option unit;
  auth : option unit;
  videos_folder_box_id : string;
  box_road_health_folder_id : string;
  box_metadata_template_key : string
}.

(** [authenticate(self)] *)
Definition authenticate (self : Box) : M Box :=
  try_except
    (call (w_ccg_auth (client_id self) (client_secret self)
             (enterprise_id self))
          (ECCGAuth (client_id self) (client_secret self)
             (enterprise_id self)) ;;
     print MsgAuthenticated ;;
     ret {| client_id := client_id self;
            client_secret := client_secret self;
            enterprise_id := enterprise_id self;
            client := Some tt;
            auth := Some tt;
            videos_folder_box_id := videos_folder_box_id self;
            box_road_health_folder_id := box_road_health_folder_id self;
            box_metadata_template_key := box_metadata_template_key self |})
    (fun e =>
       print (MsgAuthError e) ;;
       raise e).

(** [__init__(self, client_id=None, client_secret=None,
    enterprise_id=None)] *)
Definition Box_init (getenv : environ)
  (client_id client_secret enterprise_id : option value) : M Box :=
  let client_id := arg_or VNone client_id in
  let client_secret := arg_or VNone client_secret in
  let enterprise_id := arg_or VNone enterprise_id in
  self <- authenticate
    {| client_id := py_or client_id (BOX_CLIENT_ID getenv);
       client_secret := py_or client_secret (BOX_CLIENT_SECRET getenv);
       enterprise_id := py_or enterprise_id (BOX_ENTERPRISE_ID getenv);
       client := None;
       auth := None;
       videos_folder_box_id := "303832684570";
       box_road_health_folder_id := "309237796489";
       box_metadata_template_key := "folderWatcherMetadata" |} ;;
  print MsgClient ;;
  ret self.

(** [upload_small_file_to_folder(self, file_path, folder_id="0",
    new_name=None)] *)
Definition upload_small_file_to_folder (file_path : string)
  (folder_id : option value) (new_name : option value)
  : M (option descriptor) :=
  let folder_id := arg_or (VStr "0") folder_id in
  let new_name := arg_or VNone new_name in
  try_except
    (let new_file_name :=
       if negb (truthy new_name) then VStr (basename file_path)
       else new_name in
     with_open file_path "rb" (fun file =>
       uploaded_file <- uploads_upload_file new_file_name folder_id file ;;
       ret (Some uploaded_file)))
    (fun e =>
       print (MsgFailedUpload file_path e) ;;
       ret None).

(** [upload_large_file_to_folder(self, file_path, file_name,
    parent_folder_id)] *)
Definition upload_large_file_to_folder (file_path : string)
  (file_name : value) (parent_folder_id : value) : M (option descriptor) :=
  file_size <- os_path_getsize file_path ;;
  try_except
    (uploaded_file <-
       with_open file_path "rb" (fun file_stream =>
         chunked_uploads_upload_big_file
           file_stream file_name file_size parent_folder_id) ;;
     ret (Some uploaded_file))
    (fun e =>
       print (MsgErrorUploading file_name e) ;;
       ret None).

Definition get_file_size (file_path : string) : M Z :=
  os_path_getsize file_path.

(** [upload_file_to_box(self, source_file_path, dest_file_name,
    dest_folder_id)] *)
Definition upload_file_to_box (source_file_path : string)
  (dest_file_name : value) (dest_folder_id : value) : M unit :=
  file_size <- get_file_size source_file_path ;;
  uploaded_file <-
    (if file_size <? 20 * 1024 * 1024 then
       print (MsgUploadingSmall source_file_path) ;;
       upload_small_file_to_folder
         source_file_path (Some dest_folder_id) (Some dest_file_name)
     else
       upload_large_file_to_folder
         source_file_path dest_file_name dest_folder_id) ;;
  match uploaded_file with
  | Some d => print (MsgUploaded (desc_name d) (desc_id d))
  | None => ret tt
  end.

(** The body of the inner loop of [upload_all_files_to_box]: one file. *)
Definition upload_one (root : string) (dest_folder_id : value)
  (file_name : string) : M unit :=
  try_except
    (let file_path := os_path_join root file_name in
     print (MsgUploading file_path) ;;
     upload_file_to_box file_path (VStr file_name) dest_folder_id)
    (fun e => print (MsgErrorUploading (VStr file_name) e)).

(** [upload_all_files_to_box(self, source_folder, dest_folder_id)] *)
Definition upload_all_files_to_box (source_folder : string)
  (dest_folder_id : value) : M unit :=
  triples <- walk source_folder ;;
  for_each triples (fun '(root, _, files) =>
    for_each files (upload_one root dest_folder_id)).

(** ** The camera flow *)

(** [async with WirelessGoPro() as gopro: body]: the session is released on
    the way out, whether [body] returns or raises. *)
Definition with_gopro {A : Type} (body : M A) : M A :=
  call w_gopro_open EGoProOpen ;;
  finally body (fun w => (Ok tt, w_gopro_close w, [EGoProClose])).

Definition get_media_list : M (list media_group) :=
  call w_get_media_list EGetMediaList.

Definition download_file (camera_file local_file : string) : M unit :=
  call (w_download_file camera_file local_file)
       (EDownloadFile camera_file local_file).

Definition delete_all : M unit := call w_delete_all EDeleteAll.

(** The body of the inner loop of [main]: one file of one media group. *)
Definition download_one (fs : media_item) : M unit :=
  let path := filename fs in
  let local_name := ("to_upload/" ++ last_piece (split_sep path))%string in
  print (MsgDownloading path local_name) ;;
  download_file path local_name ;;
  print (MsgDownloaded local_name).

(** [async def main()] *)
Definition main : M unit :=
  with_gopro
    (print MsgConnected ;;
     media_list <- get_media_list ;;
     for_each media_list (fun group =>
       for_each (file_system group) download_one) ;;
     print MsgDeleting ;;
     delete_all ;;
     print MsgAllDeleted).

End Program.

(** ** Observations on traces *)

Definition result_of {W A : Type} (x : result A * W * list event) : result A :=
  fst (fst x).
Definition world_of {W A : Type} (x : result A * W * list event) : W :=
  snd (fst x).
Definition trace_of {W A : Type} (x : result A * W * list event)
  : list event := snd x.

(** The two upload strategies of the router. *)
Inductive strategy : Type :=
  | SingleRequest
  | Chunked.

(** The storage-service upload calls of a trace, in order. *)
Fixpoint uploads_of (tr : list event) : list strategy :=
  match tr with
  | [] => []
  | EUploadFile _ _ _ _ :: tr' => SingleRequest :: uploads_of tr'
  | EUploadBigFile _ _ _ _ _ :: tr' => Chunked :: uploads_of tr'
  | _ :: tr' => uploads_of tr'
  end.

(** The remote name, the destination folder and the local file of an
    upload call. *)
Definition upload_args (e : event) : option (value * value * string) :=
  match e with
  | EUploadFile name parent file _ => Some (name, parent, file)
  | EUploadBigFile file file_name _ parent _ => Some (file_name, parent, file)
  | _ => None
  end.

Definition is_banner (e : event) : bool :=
  match e with
  | EPrint (MsgUploading _) => true
  | _ => false
  end.

(** The upload attempts of the bulk traversal: the announcement of a file
    followed at once by the router's size query on that file. *)
Fixpoint upload_attempts (tr : list event) : list string :=
  match tr with
  | [] => []
  | e :: tr' =>
      match e, tr' with
      | EPrint (MsgUploading p), EGetSize q _ :: _ =>
          if String.eqb p q then p :: upload_attempts tr'
          else upload_attempts tr'
      | _, _ => upload_attempts tr'
      end
  end.

(** The paths of all files of a tree rooted at [top], in the order
    [os.walk] reaches them. *)
Fixpoint file_paths (top : string) (t : tree) : list string :=
  match t with
  | File => []
  | Dir es =>
      map (os_path_join top) (filenames es) ++
      (fix paths_entries (l : list (string * tree)) :=
         match l with
         | [] => []
         | (n, c) :: l' =>
             (if is_dir c then file_paths (os_path_join top n) c else [])
             ++ paths_entries l'
         end) es
  end.


(** An [open] mode that can change the file. *)
Fixpoint writes_mode (mode : string) : bool :=
  match mode with
  | EmptyString => false
  | String c r =>
      Ascii.eqb c "w" || Ascii.eqb c "a" || Ascii.eqb c "x" ||
      Ascii.eqb c "+" || writes_mode r
  end.

(** The events that create, write, rename or delete something in the local
    filesystem: an [open] in a writing mode and a camera download, which
    writes its local file. *)
Definition mutates_local_fs (e : event) : bool :=
  match e with
  | EOpen _ mode _ => writes_mode mode
  | EDownloadFile _ _ _ => true
  | _ => false
  end.

Definition opens_read_only (e : event) : Prop :=
  match e with
  | EOpen _ mode _ => mode = "rb"%string
  | _ => True
  end.

Definition is_delete (e : event) : bool :=
  match e with
  | EDeleteAll _ => true
  | _ => false
  end.

(** The camera files whose download completed. *)
Fixpoint downloaded (tr : list event) : list string :=
  match tr with
  | [] => []
  | EDownloadFile camera_file _ (Ok _) :: tr' => camera_file :: downloaded tr'
  | _ :: tr' => downloaded tr'
  end.

(** A call of the capture flow that raised [e]: the manifest query or a
    download. *)
Definition acquisition_failed (e : exn) (ev : event) : Prop :=
  match ev with
  | EGetMediaList (Raise e') => e' = e
  | EDownloadFile _ _ (Raise e') => e' = e
  | _ => False
  end.

(** What the helpers and the router emit: no announcement of the bulk
    traversal, no report of a completed upload from the helpers, nothing
    that changes the local filesystem, and files opened with mode "rb"
    only. *)
Definition helper_event (e : event) : Prop :=
  is_banner e = false /\ mutates_local_fs e = false /\ opens_read_only e /\
  (forall n i, e <> EPrint (MsgUploaded n i)).

Definition router_event (e : event) : Prop :=
  is_banner e = false /\ mutates_local_fs e = false /\ opens_read_only e.


(** The remote name of any upload call is [expected]. *)
Definition upload_named (expected : value) (e : event) : Prop :=
  match upload_args e with
  | Some (name, _, _) => name = expected
  | None => True
  end.

(** The remote name of an upload call is the base name of its local
    file. *)
Definition named_after_file (e : event) : Prop :=
  match upload_args e with
  | Some (name, _, file) => name = VStr (basename file)
  | None => True
  end.


(** The destination folder of a single-request call is [expected]. *)
Definition single_request_into (expected : value) (e : event) : Prop :=
  match e with
  | EUploadFile _ parent _ _ => parent = expected
  | _ => True
  end.

(** A local file that exists with size [size] and can be read, whatever
    else happens in the world. *)
Definition readable_file {W : Type} {world : World W} (path : string)
  (size : Z) : Prop :=
  (forall w, fst (w_getsize path w) = Ok size) /\
  (forall w, fst (w_open path "rb" w) = Ok tt).

(** A computation that returns normally in every world and whose trace
    contributes exactly the upload attempts [paths], whatever follows it. *)
Definition attempts_exactly {W : Type} (paths : list string)
  (m : W -> result unit * W * list event) : Prop :=
  forall w,
    result_of (m w) = Ok tt /\
    forall rest,
      upload_attempts (trace_of (m w) ++ rest) =
      paths ++ upload_attempts rest.

(** The file paths [os.walk] hands to the inner loop of the traversal. *)
Definition walked_paths (triples : list (string * list string * list string))
  : list string :=
  List.concat (map (fun '(root, _, files) => map (os_path_join root) files)
              triples).


(** ** A simulated world *)

(** Local files with their sizes, the tree under the staging directory, a
    storage service that is reachable or not, and a camera with its media
    and the files it fails to deliver. *)
Record sim : Type := {
  sim_files : list (string * Z);
  sim_tree : option tree;
  sim_online : bool;
  sim_media : result (list media_group);
  sim_unreadable : list string
}.

Definition sim_lookup (path : string) (s : sim) : option Z :=
  match find (fun p => String.eqb (fst p) path) (sim_files s) with
  | Some (_, size) => Some size
  | None => None
  end.

Definition no_such_file (path : string) : exn :=
  Exception ("[Errno 2] No such file or directory: '" ++ path ++ "'").

Definition connection_error : exn := Exception "Connection error".

(** The world of a scenario: the scenario is fixed, so a file that exists
    stays where it is. *)
Definition sim_world (s : sim) : World unit := {|
  w_getsize path w :=
    (match sim_lookup path s with
     | Some size => Ok size
     | None => Raise (no_such_file path)
     end, w);
  w_open path mode w :=
    (match sim_lookup path s with
     | Some _ => Ok tt
     | None => Raise (no_such_file path)
     end, w);
  w_tree top w := sim_tree s;
  w_upload_file name parent file w :=
    (if sim_online s then Ok {| desc_name := str name; desc_id := "1" |}
     else Raise connection_error, w);
  w_upload_big_file file file_name file_size parent_folder_id w :=
    (if sim_online s then Ok {| desc_name := str file_name; desc_id := "2" |}
     else Raise connection_error, w);
  w_ccg_auth client_id client_secret enterprise_id w :=
    (if truthy client_id && truthy client_secret && truthy enterprise_id
     then Ok tt else Raise (Exception "invalid_client"), w);
  w_gopro_open w := (Ok tt, w);
  w_gopro_close w := w;
  w_get_media_list w := (sim_media s, w);
  w_download_file camera_file local_file w :=
    (if existsb (String.eqb camera_file) (sim_unreadable s)
     then Raise connection_error else Ok tt, w);
  w_delete_all w := (Ok tt, w)
|}.

(** A staging directory with a small file, a file of exactly 20 MiB, a
    file one byte short of it in a subdirectory and an empty file; a
    camera with two clips. *)
Definition staging : sim := {|
  sim_files :=
    [("to_upload/a.mp4"%string, 1024);
     ("to_upload/big.mp4"%string, 20971520);
     ("to_upload/trip/b.mp4"%string, 20971519);
     ("to_upload/empty.bin"%string, 0)];
  sim_tree :=
    Some (Dir [("a.mp4"%string, File);
               ("big.mp4"%string, File);
               ("trip"%string, Dir [("b.mp4"%string, File)]);
               ("empty.bin"%string, File)]);
  sim_online := true;
  sim_media :=
    Ok [MediaGroup [MediaItem "100GOPRO/GX010001.MP4";
                    MediaItem "100GOPRO/GX010002.MP4"]];
  sim_unreadable := []
|}.

(** The same, with the storage service out of reach. *)
Definition offline : sim := {|
  sim_files := sim_files staging;
  sim_tree := sim_tree staging;
  sim_online := false;
  sim_media := sim_media staging;
  sim_unreadable := []
|}.

(** The same, with a camera that fails to deliver its second clip. *)
Definition flaky_camera : sim := {|
  sim_files := sim_files staging;
  sim_tree := sim_tree staging;
  sim_online := true;
  sim_media := sim_media staging;
  sim_unreadable := ["100GOPRO/GX010002.MP4"%string]
|}.

(** An environment with all three credentials set. *)
Definition credentials_set : environ :=
  fun name =>
    if String.eqb name "BOX_CLIENT_ID" then VStr "env-id"
    else if String.eqb name "BOX_CLIENT_SECRET" then VStr "env-secret"
    else if String.eqb name "BOX_ENTERPRISE_ID" then VStr "env-enterprise"
    else VNone.

(** The credential the constructor keeps: its argument when that is
    supplied and true, the environment's value otherwise. *)
Definition credential_by_precedence (argument : option value)
  (from_environment : value) : value :=
  match argument with
  | Some v => if truthy v then v else from_environment
  | None => from_environment
  end.

(** The events up to the first bulk delete. *)
Fixpoint before_delete (tr : list event) : list event :=
  match tr with
  | [] => []
  | e :: tr' => if is_delete e then [] else e :: before_delete tr'
  end.

(** All files of a manifest, group by group. *)
Definition manifest_files (groups : list media_group) : list string :=
  List.concat (map (fun g => map filename (file_system g)) groups).

(** A download loop: it issues no bulk delete; when it returns it has
    downloaded exactly [files] and no call has failed; when it raises [e],
    the only failed call is the one that raised [e]. *)
Definition downloads_exactly {W : Type} (files : list string)
  (m : W -> result unit * W * list event) : Prop :=
  forall w,
    Forall (fun ev => is_delete ev = false) (trace_of (m w)) /\
    match result_of (m w) with
    | Ok _ =>
        downloaded (trace_of (m w)) = files /\
        Forall (fun ev => forall e, ~ acquisition_failed e ev)
               (trace_of (m w))
    | Raise e =>
        Forall (fun ev => forall e', acquisition_failed e' ev -> e' = e)
               (trace_of (m w))
    end.

(** ** The script *)

Section Script.

Context {W : Type} {world : World W}.

(** The [__main__] block: [box = Box()], then
    [box.upload_all_files_to_box("to_upload", box.videos_folder_box_id)]. *)
Definition script (getenv : environ) : M unit :=
  box <- Box_init getenv None None None ;;
  upload_all_files_to_box "to_upload" (VStr (videos_folder_box_id box)).

End Script.

(** ** Further observations on traces *)

(** The destination folder of an upload call is [expected]. *)
Definition upload_into (expected : value) (e : event) : Prop :=
  match upload_args e with
  | Some (_, parent, _) => parent = expected
  | None => True
  end.

(** The local file of an upload call is [expected]. *)
Definition upload_from (expected : string) (e : event) : Prop :=
  match upload_args e with
  | Some (_, _, file) => file = expected
  | None => True
  end.

(** Files are opened one at a time, every opened file is closed, and the
    storage service is handed a file only while that file is open.
    [opened] is the file open at the start of the trace. *)
Fixpoint brackets (opened : option string) (tr : list event) : bool :=
  match tr with
  | [] =>
      match opened with
      | None => true
      | Some _ => false
      end
  | e :: tr' =>
      match e with
      | EOpen p _ (Ok _) =>
          match opened with
          | None => brackets (Some p) tr'
          | Some _ => false
          end
      | EClose p =>
          match opened with
          | Some q => String.eqb p q && brackets None tr'
          | None => false
          end
      | EUploadFile _ _ f _ | EUploadBigFile f _ _ _ _ =>
          match opened with
          | Some q => String.eqb f q && brackets opened tr'
          | None => false
          end
      | _ => brackets opened tr'
      end
  end.

(** The size a chunked upload call declares is [size]. *)
Definition declares_size (size : Z) (e : event) : Prop :=
  match e with
  | EUploadBigFile _ _ file_size _ _ => file_size = size
  | _ => True
  end.

(** A call to the storage service that returned descriptor [d]. *)
Definition uploaded_as (d : descriptor) (e : event) : Prop :=
  match e with
  | EUploadFile _ _ _ (Ok d') => d' = d
  | EUploadBigFile _ _ _ _ (Ok d') => d' = d
  | _ => False
  end.

(** A command sent to the camera inside a session. *)
Definition is_camera_command (e : event) : bool :=
  match e with
  | EGetMediaList _ | EDownloadFile _ _ _ | EDeleteAll _ => true
  | _ => false
  end.

(** The download calls of a trace, completed or not: camera file and
    local file. *)
Fixpoint download_calls (tr : list event) : list (string * string) :=
  match tr with
  | [] => []
  | EDownloadFile camera_file local_file _ :: tr' =>
      (camera_file, local_file) :: download_calls tr'
  | _ :: tr' => download_calls tr'
  end.

(** Where [main] puts the download of a camera file. *)
Definition staged_name (camera_file : string) : string :=
  ("to_upload/" ++ basename camera_file)%string.

(** The opening or the release of the camera session. *)
Definition is_session_event (e : event) : bool :=
  match e with
  | EGoProOpen _ | EGoProClose => true
  | _ => false
  end.

(** A download call puts its file under its staged name. *)
Definition download_staged (e : event) : Prop :=
  match e with
  | EDownloadFile camera_file local_file _ =>
      local_file = staged_name camera_file
  | _ => True
  end.

(** A download loop over [files]: when it returns, it has called for each
    file in order and no call has failed; when it raises [e], it has
    called for an initial segment of [files], the last call raised [e],
    no call before it failed, and that call is its last event. *)
Definition downloads_in_order {W : Type} (files : list string)
  (m : W -> result unit * W * list event) : Prop :=
  forall w,
    match result_of (m w) with
    | Ok _ =>
        download_calls (trace_of (m w)) =
          map (fun f => (f, staged_name f)) files /\
        Forall (fun ev => forall e, ~ acquisition_failed e ev)
               (trace_of (m w))
    | Raise e =>
        exists done c rest pre,
          files = done ++ c :: rest /\
          download_calls (trace_of (m w)) =
            map (fun f => (f, staged_name f)) (done ++ [c]) /\
          trace_of (m w) =
            pre ++ [EDownloadFile c (staged_name c) (Raise e)] /\
          Forall (fun ev => forall e, ~ acquisition_failed e ev) pre
    end.

(** ** The traversal, file by file *)

(** The upload calls of a trace, in order: local file and destination
    folder. *)
Fixpoint upload_calls (tr : list event) : list (string * value) :=
  match tr with
  | [] => []
  | e :: tr' =>
      match upload_args e with
      | Some (_, parent, file) => (file, parent) :: upload_calls tr'
      | None => upload_calls tr'
      end
  end.

(** The files [os.walk] hands to the inner loop of the traversal:
    directory and file name. *)
Definition walked_files (triples : list (string * list string * list string))
  : list (string * string) :=
  List.concat (map (fun '(root, _, files) => map (pair root) files) triples).

(** A local file whose size query raises [e], whatever else happens in
    the world. *)
Definition unreadable_file {W : Type} {world : World W} (path : string)
  (e : exn) : Prop :=
  forall w, fst (w_getsize path w) = Raise e.

Section Traversal.

Context {W : Type} {world : World W}.

(** What the traversal is to do with the files it is handed, one after
    the other: announce the file, run the router on it, and when the
    router raises print the error line with the file's name and the
    exception; then go on with the next file, from the world the router
    left. *)
Fixpoint attempt_each (dest_folder_id : value)
  (files : list (string * string)) (w : W) : W * list event :=
  match files with
  | [] => (w, [])
  | (root, file_name) :: files' =>
      let file_path := os_path_join root file_name in
      match
        upload_file_to_box file_path (VStr file_name) dest_folder_id w
      with
      | (r, w1, t1) =>
          let report :=
            match r with
            | Ok _ => []
            | Raise e => [EPrint (MsgErrorUploading (VStr file_name) e)]
            end in
          match attempt_each dest_folder_id files' w1 with
          | (w2, t2) =>
              (w2, EPrint (MsgUploading file_path) :: t1 ++ report ++ t2)
          end
      end
  end.

End Traversal.


(** ** Basic facts *)

Section Facts.

Context {W : Type} {world : World W}.

Lemma bind_run {A B : Type} (m : M A) (f : A -> M B) (w : W) :
  bind m f w =
  match m w with
  | (Ok a, w1, t1) =>
      (result_of (f a w1), world_of (f a w1), t1 ++ trace_of (f a w1))
  | (Raise e, w1, t1) => (Raise e, w1, t1)
  end.
Proof.
  unfold bind, result_of, world_of, trace_of.
  destruct (m w) as [[[a|e] w1] t1]; [|reflexivity].
  destruct (f a w1) as [[r w2] t2]; reflexivity.
Qed.

End Facts.

(** ** The upload helpers and the router *)

Ltac unfold_prog :=
  unfold upload_file_to_box, upload_small_file_to_folder,
    upload_large_file_to_folder, get_file_size, os_path_getsize, with_open,
    uploads_upload_file, chunked_uploads_upload_big_file, bind, try_except,
    finally, call, print, emit, ret, raise, result_of, world_of, trace_of,
    arg_or.

Ltac step_call :=
  match goal with
  | |- context [w_getsize ?p ?w] =>
      let E := fresh "Hsize" in
      destruct (w_getsize p w) as [[?sz|?e] ?w] eqn:E
  | |- context [w_open ?p ?m ?w] =>
      let E := fresh "Hopen" in
      destruct (w_open p m w) as [[[]|?e] ?w] eqn:E
  | |- context [w_upload_file ?n ?f ?p ?w] =>
      let E := fresh "Hup" in
      destruct (w_upload_file n f p w) as [[?d|?e] ?w] eqn:E
  | |- context [w_upload_big_file ?p ?n ?s ?f ?w] =>
      let E := fresh "Hbig" in
      destruct (w_upload_big_file p n s f w) as [[?d|?e] ?w] eqn:E
  | |- context [if ?a <? ?b then _ else _] =>
      let E := fresh "Hlt" in
      destruct (a <? b) eqn:E
  end.

Ltac run_prog := unfold_prog; repeat (step_call; cbn [fst snd app]); cbn.

Section Uploads.

Context {W : Type} {world : World W}.

(** The single-request helper returns a descriptor or [None]. *)
Lemma upload_small_file_to_folder_never_raises
  (file_path : string) (folder_id new_name : option value) (w : W) :
  exists r, result_of
    (upload_small_file_to_folder file_path folder_id new_name w) = Ok r.
Proof.
  run_prog; eauto.
Qed.

(** So does the chunked helper, once its size query has returned. *)
Lemma upload_large_file_to_folder_after_size_query
  (file_path : string) (file_name parent_folder_id : value)
  (size : Z) (w w1 : W) :
  w_getsize file_path w = (Ok size, w1) ->
  exists r, result_of
    (upload_large_file_to_folder file_path file_name parent_folder_id w) =
    Ok r.
Proof.
  intros H. unfold_prog. rewrite H. cbn [fst snd].
  repeat (step_call; cbn [fst snd app]); cbn; eauto.
Qed.

(** C9: when the size query on the source file raises, [upload_file_to_box]
    raises that same exception to its caller: nothing is printed, no helper
    is entered and no sentinel is returned; the size query is the only
    event. *)
Theorem upload_file_to_box_size_failure_propagates
  (source_file_path : string) (dest_file_name dest_folder_id : value)
  (w w1 : W) (e : exn) :
  w_getsize source_file_path w = (Raise e, w1) ->
  upload_file_to_box source_file_path dest_file_name dest_folder_id w =
  (Raise e, w1, [EGetSize source_file_path (Raise e)]).
Proof.
  intros H. unfold_prog. rewrite H. reflexivity.
Qed.

(** C1: for a file that exists with size [size] and is readable, the router
    makes exactly one upload call; it is the single-request call exactly
    when [size < 20 * 1024 * 1024] and the chunked call exactly when
    [20 * 1024 * 1024 <= size].  So 20971520 bytes go chunked, 20971519
    bytes and 0 bytes go single-request. *)
Theorem upload_file_to_box_routes_by_size
  (source_file_path : string) (dest_file_name dest_folder_id : value)
  (size : Z) (w : W) :
  readable_file source_file_path size ->
  let tr := trace_of
    (upload_file_to_box source_file_path dest_file_name dest_folder_id w) in
  (uploads_of tr = [SingleRequest] <-> size < 20 * 1024 * 1024) /\
  (uploads_of tr = [Chunked] <-> 20 * 1024 * 1024 <= size) /\
  (size = 20971520 -> uploads_of tr = [Chunked]) /\
  (size = 20971519 -> uploads_of tr = [SingleRequest]) /\
  (size = 0 -> uploads_of tr = [SingleRequest]).
Proof.
  intros [Hsz Hop] tr.
  assert (Hroute : uploads_of tr =
            if size <? 20 * 1024 * 1024 then [SingleRequest] else [Chunked]).
  { subst tr. unfold_prog.
    pose proof (Hsz w) as H1.
    destruct (w_getsize source_file_path w) as [r1 w1].
    cbn [fst] in H1. subst r1.
    destruct (size <? 20 * 1024 * 1024) eqn:Hlt.
    - pose proof (Hop w1) as H2.
      destruct (w_open source_file_path "rb" w1) as [r2 w2].
      cbn [fst] in H2. subst r2.
      destruct (w_upload_file _ _ _ w2) as [[d|e] w3]; reflexivity.
    - pose proof (Hsz w1) as H2.
      destruct (w_getsize source_file_path w1) as [r2 w2].
      cbn [fst] in H2. subst r2.
      pose proof (Hop w2) as H3.
      destruct (w_open source_file_path "rb" w2) as [r3 w3].
      cbn [fst] in H3. subst r3.
      destruct (w_upload_big_file _ _ _ _ w3) as [[d|e] w4]; reflexivity. }
  rewrite Hroute.
  destruct (Z.ltb_spec size (20 * 1024 * 1024)) as [Hlt|Hge].
  - repeat split; intros; try reflexivity; try lia; try discriminate.
  - repeat split; intros; try reflexivity; try lia; try discriminate.
Qed.

Ltac trace_facts :=
  repeat first
    [ apply Forall_nil
    | apply Forall_cons
    | progress (unfold helper_event, router_event; cbn)
    | split
    | reflexivity
    | exact I
    | discriminate
    | (intros; discriminate) ].

Lemma upload_small_file_to_folder_events
  (file_path : string) (folder_id new_name : option value) (w : W) :
  Forall helper_event
    (trace_of (upload_small_file_to_folder file_path folder_id new_name w)).
Proof.
  run_prog; trace_facts.
Qed.

Lemma upload_large_file_to_folder_events
  (file_path : string) (file_name parent_folder_id : value) (w : W) :
  Forall helper_event
    (trace_of
       (upload_large_file_to_folder file_path file_name parent_folder_id w)).
Proof.
  run_prog; trace_facts.
Qed.

Lemma upload_file_to_box_events
  (source_file_path : string) (dest_file_name dest_folder_id : value)
  (w : W) :
  Forall router_event
    (trace_of
       (upload_file_to_box source_file_path dest_file_name dest_folder_id w)).
Proof.
  run_prog; trace_facts.
Qed.

(** C8: every event emitted by [upload_file_to_box],
    [upload_small_file_to_folder] and [upload_large_file_to_folder] leaves
    the local filesystem as it is, and every [open] among them uses mode
    "rb". *)
Theorem uploads_do_not_mutate_local_fs
  (file_path : string) (name folder : value)
  (folder_id new_name : option value) (w : W) :
  let frame e := mutates_local_fs e = false /\ opens_read_only e in
  Forall frame (trace_of (upload_file_to_box file_path name folder w)) /\
  Forall frame
    (trace_of (upload_small_file_to_folder file_path folder_id new_name w)) /\
  Forall frame
    (trace_of (upload_large_file_to_folder file_path name folder w)).
Proof.
  intros frame.
  assert (Hr : forall e, router_event e -> frame e)
    by (unfold router_event, frame; tauto).
  assert (Hh : forall e, helper_event e -> frame e)
    by (unfold helper_event, frame; tauto).
  repeat split.
  - eapply Forall_impl; [exact Hr | apply upload_file_to_box_events].
  - eapply Forall_impl; [exact Hh | apply upload_small_file_to_folder_events].
  - eapply Forall_impl; [exact Hh | apply upload_large_file_to_folder_events].
Qed.

(** C2, as the code has it: when the helper chosen by the router returns
    [None], the router tests the result, prints nothing more and returns
    normally; its trace is the size query, the announcement of the
    single-request path if that was taken, and the helper's own events,
    none of which reports a completed upload. *)
Theorem upload_file_to_box_skips_sentinel
  (source_file_path : string) (dest_file_name dest_folder_id : value)
  (size : Z) (w w1 w2 : W) (t2 : list event) :
  w_getsize source_file_path w = (Ok size, w1) ->
  (if size <? 20 * 1024 * 1024 then
     upload_small_file_to_folder
       source_file_path (Some dest_folder_id) (Some dest_file_name)
   else
     upload_large_file_to_folder
       source_file_path dest_file_name dest_folder_id) w1 =
  (Ok None, w2, t2) ->
  upload_file_to_box source_file_path dest_file_name dest_folder_id w =
  (Ok tt, w2,
   EGetSize source_file_path (Ok size) ::
   (if size <? 20 * 1024 * 1024
    then [EPrint (MsgUploadingSmall source_file_path)] else []) ++ t2) /\
  forall n i,
    ~ In (EPrint (MsgUploaded n i))
         (trace_of
            (upload_file_to_box
               source_file_path dest_file_name dest_folder_id w)).
Proof.
  intros Hsz Hhelper.
  assert (Hrun :
    upload_file_to_box source_file_path dest_file_name dest_folder_id w =
    (Ok tt, w2,
     EGetSize source_file_path (Ok size) ::
     (if size <? 20 * 1024 * 1024
      then [EPrint (MsgUploadingSmall source_file_path)] else []) ++ t2)).
  { unfold upload_file_to_box, get_file_size, os_path_getsize.
    unfold bind at 1. unfold call at 1. rewrite Hsz.
    destruct (size <? 20 * 1024 * 1024).
    - unfold bind at 1. unfold bind at 1. unfold print at 1, emit at 1.
      rewrite Hhelper. unfold ret. cbn. rewrite app_nil_r. reflexivity.
    - unfold bind at 1. rewrite Hhelper. unfold ret. cbn.
      rewrite app_nil_r. reflexivity. }
  split; [exact Hrun|].
  intros n i Hin. rewrite Hrun in Hin. unfold trace_of, snd in Hin.
  apply in_inv in Hin as [Hin|Hin]; [discriminate|].
  apply in_app_or in Hin as [Hin|Hin].
  - destruct (size <? 20 * 1024 * 1024).
    + destruct Hin as [Hin|[]]; discriminate.
    + destruct Hin.
  - assert (Ht2 : Forall helper_event t2).
    { destruct (size <? 20 * 1024 * 1024).
      - pose proof (upload_small_file_to_folder_events source_file_path
          (Some dest_folder_id) (Some dest_file_name) w1) as H.
        rewrite Hhelper in H. exact H.
      - pose proof (upload_large_file_to_folder_events source_file_path
          dest_file_name dest_folder_id w1) as H.
        rewrite Hhelper in H. exact H. }
    rewrite Forall_forall in Ht2.
    apply Ht2 in Hin. destruct Hin as (_ & _ & _ & Hno).
    exact (Hno n i eq_refl).
Qed.

End Uploads.

Section Names.

Context {W : Type} {world : World W}.


(** C10: called without a folder id, [upload_small_file_to_folder] sends
    every upload call to folder "0", which is none of the folder and
    template constants set by [__init__]; and when the file opens, such a
    call is made. *)
Theorem upload_small_file_to_folder_default_folder
  (getenv : environ) (cid cs eid : option value)
  (file_path : string) (new_name : option value) (w : W) :
  let tr := trace_of (upload_small_file_to_folder file_path None new_name w) in
  Forall (single_request_into (VStr "0")) tr /\
  (forall w1, w_open file_path "rb" w = (Ok tt, w1) ->
     exists name r, In (EUploadFile name (VStr "0") file_path r) tr) /\
  (forall w0 self,
     result_of (Box_init getenv cid cs eid w0) = Ok self ->
     "0"%string <> videos_folder_box_id self /\
     "0"%string <> box_road_health_folder_id self /\
     "0"%string <> box_metadata_template_key self).
Proof.
  intros tr. subst tr. split; [|split].
  - run_prog;
      repeat first [apply Forall_nil | apply Forall_cons];
      unfold single_request_into; cbn; auto.
  - intros w1 Hopen. unfold_prog. rewrite Hopen. cbn.
    destruct (w_upload_file _ _ _ w1) as [[d|e] w2]; cbn;
      eexists; eexists; right; left; reflexivity.
  - intros w0 self. unfold Box_init, authenticate.
    unfold_prog.
    destruct (w_ccg_auth _ _ _ w0) as [[[]|e] w1]; cbn.
    + intros H. injection H as <-. cbn. repeat split; discriminate.
    + discriminate.
Qed.

End Names.

(** ** Paths and trees *)

Lemma basename_no_sep (f : string) : contains_sep f = false -> basename f = f.
Proof.
  destruct f as [|c r]; [reflexivity|]. cbn.
  destruct (Ascii.eqb c sep); cbn; [discriminate|].
  intros ->. reflexivity.
Qed.

Lemma contains_sep_app (a b : string) :
  contains_sep (a ++ b)%string = contains_sep a || contains_sep b.
Proof.
  induction a as [|c a IH]; [reflexivity|].
  cbn. rewrite IH. apply orb_assoc.
Qed.

Lemma basename_app_sep (a b : string) :
  contains_sep b = true -> basename (a ++ b)%string = basename b.
Proof.
  intros Hb. induction a as [|c a IH]; [reflexivity|].
  cbn. rewrite contains_sep_app, Hb, orb_true_r, IH.
  destruct (Ascii.eqb c sep); reflexivity.
Qed.

Lemma ends_with_sep_basename (a : string) :
  ends_with_sep a = true -> basename a = EmptyString.
Proof.
  induction a as [|c a IH]; [discriminate|].
  destruct a as [|c' a'].
  - cbn. intros ->. reflexivity.
  - intros H. change (ends_with_sep (String c' a') = true) in H.
    specialize (IH H).
    change (basename (String c (String c' a'))) with
      (if Ascii.eqb c sep then basename (String c' a')
       else if contains_sep (String c' a') then basename (String c' a')
       else String c (String c' a')).
    rewrite IH.
    destruct (Ascii.eqb c sep); [reflexivity|].
    destruct (contains_sep (String c' a')) eqn:E; [reflexivity|].
    apply basename_no_sep in E. congruence.
Qed.

Lemma ends_with_sep_contains (a : string) :
  ends_with_sep a = true -> contains_sep a = true.
Proof.
  induction a as [|c a IH]; [discriminate|].
  destruct a as [|c' a'].
  - cbn. intros ->. reflexivity.
  - intros H. change (ends_with_sep (String c' a') = true) in H.
    cbn in *. rewrite (IH H). apply orb_true_r.
Qed.

Lemma basename_app_dir (a b : string) :
  ends_with_sep a = true -> contains_sep b = false ->
  basename (a ++ b)%string = b.
Proof.
  intros Ha Hb. induction a as [|c a IH]; [discriminate|].
  destruct a as [|c' a'].
  - cbn in Ha. cbn. rewrite Ha. apply basename_no_sep, Hb.
  - change (ends_with_sep (String c' a') = true) in Ha.
    specialize (IH Ha).
    change (String c (String c' a') ++ b)%string with
      (String c (String c' a' ++ b))%string.
    cbn [basename]. rewrite IH.
    rewrite contains_sep_app, (ends_with_sep_contains _ Ha).
    cbn. destruct (Ascii.eqb c sep); reflexivity.
Qed.

(** The base name of a directory entry's path is the entry's name. *)
Lemma basename_join (root f : string) :
  contains_sep f = false -> basename (os_path_join root f) = f.
Proof.
  intros Hf. unfold os_path_join.
  assert (Hstart : starts_with_sep f = false).
  { destruct f as [|c r]; [reflexivity|]. cbn in *.
    destruct (Ascii.eqb c sep); [discriminate|reflexivity]. }
  rewrite Hstart.
  destruct (String.eqb_spec root "") as [->|Hne]; cbn [orb].
  - apply basename_no_sep, Hf.
  - destruct (ends_with_sep root) eqn:He.
    + apply basename_app_dir; assumption.
    + rewrite basename_app_sep.
      * cbn. apply basename_no_sep, Hf.
      * reflexivity.
Qed.

Lemma split_sep_shape (p : string) :
  exists h t,
    split_sep p = h :: t /\
    last (h :: t) EmptyString = basename p /\
    (contains_sep p = false -> h = p /\ t = []) /\
    (contains_sep p = true -> t <> []).
Proof.
  induction p as [|c r (h & t & Hs & Hl & Hno & Hyes)].
  - exists EmptyString, []. repeat split; discriminate.
  - cbn [split_sep basename contains_sep]. rewrite Hs.
    destruct (Ascii.eqb c sep); cbn [orb].
    + exists EmptyString, (h :: t). repeat split; try discriminate.
      exact Hl.
    + exists (String c h), t. split; [reflexivity|].
      destruct (contains_sep r).
      * specialize (Hyes eq_refl). repeat split; try discriminate; auto.
        destruct t as [|h' t']; [congruence|]. exact Hl.
      * destruct (Hno eq_refl) as [-> ->].
        repeat split; try discriminate; auto.
Qed.

(** [path.split("/")[-1]] is the base name. *)
Lemma last_piece_split_sep (p : string) :
  last_piece (split_sep p) = basename p.
Proof.
  destruct (split_sep_shape p) as (h & t & Hs & Hl & _).
  unfold last_piece. rewrite Hs. exact Hl.
Qed.

(** Induction on trees, with the hypothesis for every entry of a
    directory. *)
Lemma tree_ind (P : tree -> Prop) :
  P File ->
  (forall es, Forall (fun e => P (snd e)) es -> P (Dir es)) ->
  forall t, P t.
Proof.
  intros HF HD.
  fix IH 1. intros [|es]; [exact HF|].
  apply HD. induction es as [|[n c] es IHes]; constructor.
  - apply IH.
  - exact IHes.
Qed.

Lemma walked_paths_app (a b : list (string * list string * list string)) :
  walked_paths (a ++ b) = walked_paths a ++ walked_paths b.
Proof.
  unfold walked_paths. rewrite map_app, List.concat_app. reflexivity.
Qed.

Lemma walked_paths_cons (root : string) (dirs files : list string)
  (l : list (string * list string * list string)) :
  walked_paths ((root, dirs, files) :: l) =
  map (os_path_join root) files ++ walked_paths l.
Proof. reflexivity. Qed.

(** The walk hands over exactly the files of the tree. *)
Lemma walked_paths_os_walk (t : tree) :
  forall top, walked_paths (os_walk top t) = file_paths top t.
Proof.
  induction t as [|es IH] using tree_ind; intros top; [reflexivity|].
  cbn [os_walk file_paths].
  rewrite walked_paths_cons. f_equal.
  induction es as [|[n c] es IHes]; [reflexivity|].
  inversion IH as [|? ? Hc Hes]; subst. cbn [snd] in Hc.
  rewrite walked_paths_app, (IHes Hes).
  destruct (is_dir c); [rewrite Hc|]; reflexivity.
Qed.

(** A directory tree has as many file paths as it has files. *)
Lemma length_file_paths (t : tree) :
  forall top,
    is_dir t = true -> List.length (file_paths top t) = count_files t.
Proof.
  induction t as [|es IH] using tree_ind; intros top Hdir; [discriminate|].
  clear Hdir. cbn [file_paths count_files].
  rewrite length_app, length_map.
  induction es as [|[n c] es IHes]; [reflexivity|].
  inversion IH as [|? ? Hc Hes]; subst. cbn [snd] in Hc.
  specialize (IHes Hes).
  unfold filenames in *. cbn [filter snd map].
  destruct c as [|es'].
  - cbn [is_dir negb map List.length app count_files]. rewrite <- IHes. lia.
  - cbn [is_dir negb]. rewrite length_app, (Hc _ eq_refl), <- IHes. lia.
Qed.


(** ** The bulk traversal *)

Lemma upload_attempts_skip (t rest : list event) :
  Forall (fun e => is_banner e = false) t ->
  upload_attempts (t ++ rest) = upload_attempts rest.
Proof.
  induction 1 as [|e t He _ IH]; [reflexivity|].
  cbn [app upload_attempts]. rewrite IH.
  destruct e as [[]| | | | | | | | | | | |]; try reflexivity; discriminate.
Qed.

Lemma concat_map_singleton {A B : Type} (h : A -> B) (l : list A) :
  List.concat (map (fun x => [h x]) l) = map h l.
Proof.
  induction l as [|x l IH]; [reflexivity|]. cbn. rewrite IH. reflexivity.
Qed.

Section Bulk.

Context {W : Type} {world : World W}.

Lemma for_each_events {A : Type} (P : event -> Prop) (l : list A)
  (body : A -> M (W:=W) unit) :
  (forall x, In x l -> forall w, Forall P (trace_of (body x w))) ->
  forall w, Forall P (trace_of (for_each l body w)).
Proof.
  induction l as [|x l IH]; intros Hbody w; [constructor|].
  cbn [for_each]. rewrite bind_run.
  pose proof (Hbody x (or_introl eq_refl) w) as Hx.
  destruct (body x w) as [[[[]|e] w1] t1]; unfold trace_of in *; cbn [snd] in *.
  - apply Forall_app. split; [exact Hx|].
    apply IH. intros y Hy. apply Hbody. right. exact Hy.
  - exact Hx.
Qed.

Lemma for_each_attempts {A : Type} (g : A -> list string) (l : list A)
  (body : A -> M (W:=W) unit) :
  (forall x, In x l -> attempts_exactly (g x) (body x)) ->
  attempts_exactly (List.concat (map g l)) (for_each l body).
Proof.
  induction l as [|x l IH]; intros Hbody w.
  - split; reflexivity.
  - cbn [for_each map List.concat]. rewrite bind_run.
    destruct (Hbody x (or_introl eq_refl) w) as [Hr Ht].
    destruct (IH (fun y Hy => Hbody y (or_intror Hy))
                 (world_of (body x w))) as [Hr' Ht'].
    destruct (body x w) as [[r w1] t1].
    unfold result_of, world_of, trace_of in *. cbn [fst snd] in *.
    subst r. cbn [fst snd]. split; [exact Hr'|].
    intros rest. rewrite <- !app_assoc, Ht, Ht'. reflexivity.
Qed.

(** One file of the traversal: the announcement, the router's run, and
    the report of an exception if the router raised one.  The exception
    stops here. *)
Lemma upload_one_run (root : string) (dest_folder_id : value)
  (file_name : string) (w : W) :
  let file_path := os_path_join root file_name in
  exists tail,
    result_of (upload_one root dest_folder_id file_name w) = Ok tt /\
    trace_of (upload_one root dest_folder_id file_name w) =
      EPrint (MsgUploading file_path) ::
      trace_of (upload_file_to_box file_path (VStr file_name)
                  dest_folder_id w) ++ tail /\
    Forall (fun e => exists m, e = EPrint m /\ is_banner e = false) tail.
Proof.
  intros file_path. unfold upload_one. fold file_path.
  unfold try_except, bind, print, emit.
  destruct (upload_file_to_box file_path (VStr file_name) dest_folder_id w)
    as [[[[]|e] w1] t1]; unfold result_of, trace_of; cbn.
  - exists []. rewrite app_nil_r. repeat split. constructor.
  - eexists [_]. repeat split. constructor; [|constructor].
    eexists. split; reflexivity.
Qed.

Lemma upload_file_to_box_starts_with_size_query
  (source_file_path : string) (dest_file_name dest_folder_id : value)
  (w : W) :
  exists r rest,
    trace_of
      (upload_file_to_box source_file_path dest_file_name dest_folder_id w) =
    EGetSize source_file_path r :: rest.
Proof.
  unfold upload_file_to_box. rewrite bind_run.
  unfold get_file_size, os_path_getsize, call.
  destruct (w_getsize source_file_path w) as [[sz|e] w1];
    unfold trace_of; cbn [snd app]; eauto.
Qed.

Lemma upload_one_attempt (root : string) (dest_folder_id : value)
  (file_name : string) :
  attempts_exactly [os_path_join root file_name]
    (upload_one root dest_folder_id file_name).
Proof.
  intros w.
  destruct (upload_one_run root dest_folder_id file_name w)
    as (tail & Hr & Ht & Htail).
  split; [exact Hr|]. intros rest. rewrite Ht.
  pose proof (upload_file_to_box_events (os_path_join root file_name)
                (VStr file_name) dest_folder_id w) as Hev.
  destruct (upload_file_to_box_starts_with_size_query
              (os_path_join root file_name) (VStr file_name)
              dest_folder_id w) as (r & rest1 & Hhead).
  rewrite Hhead in *.
  cbn [app upload_attempts]. rewrite String.eqb_refl.
  rewrite upload_attempts_skip; [reflexivity|].
  apply Forall_inv_tail in Hev.
  apply Forall_app. split.
  - eapply Forall_impl; [|exact Hev]. intros e He. apply He.
  - eapply Forall_impl; [|exact Htail]. intros e (m & _ & He). exact He.
Qed.

Lemma upload_file_to_box_named_after_file
  (root file_name : string) (dest_folder_id : value) (w : W) :
  contains_sep file_name = false ->
  Forall named_after_file
    (trace_of
       (upload_file_to_box (os_path_join root file_name) (VStr file_name)
          dest_folder_id w)).
Proof.
  intros Hname. pose proof (basename_join root file_name Hname) as Hb.
  run_prog;
    repeat first [apply Forall_nil | apply Forall_cons];
    unfold named_after_file; cbn; auto;
    rewrite Hb; try reflexivity;
    destruct (String.eqb file_name ""); reflexivity.
Qed.

Lemma upload_one_named_after_file
  (root file_name : string) (dest_folder_id : value) (w : W) :
  contains_sep file_name = false ->
  Forall named_after_file
    (trace_of (upload_one root dest_folder_id file_name w)).
Proof.
  intros Hname.
  destruct (upload_one_run root dest_folder_id file_name w)
    as (tail & _ & Ht & Htail).
  rewrite Ht. constructor; [exact I|].
  apply Forall_app. split.
  - apply upload_file_to_box_named_after_file, Hname.
  - eapply Forall_impl; [|exact Htail].
    intros e (m & -> & _). exact I.
Qed.

Lemma traversal_attempts (dest_folder_id : value)
  (triples : list (string * list string * list string)) :
  attempts_exactly (walked_paths triples)
    (for_each triples (fun '(root, _, files) =>
       for_each files (upload_one root dest_folder_id))).
Proof.
  unfold walked_paths. apply for_each_attempts.
  intros [[root dirs] files] _.
  rewrite <- concat_map_singleton.
  apply for_each_attempts. intros f _. apply upload_one_attempt.
Qed.

Lemma upload_calls_app (t1 t2 : list event) :
  upload_calls (t1 ++ t2) = upload_calls t1 ++ upload_calls t2.
Proof.
  induction t1 as [|e t1 IH]; [reflexivity|].
  cbn [app upload_calls]. rewrite IH.
  destruct (upload_args e) as [[[n f] p]|]; reflexivity.
Qed.

(** One file of the traversal, as the run of the router on it. *)
Lemma upload_one_step (root : string) (dest_folder_id : value)
  (file_name : string) (w : W) :
  upload_one root dest_folder_id file_name w =
  match
    upload_file_to_box (os_path_join root file_name) (VStr file_name)
      dest_folder_id w
  with
  | (r, w1, t1) =>
      (Ok tt, w1,
       EPrint (MsgUploading (os_path_join root file_name)) ::
       t1 ++ match r with
             | Ok _ => []
             | Raise e => [EPrint (MsgErrorUploading (VStr file_name) e)]
             end)
  end.
Proof.
  unfold upload_one, try_except, bind, print, emit.
  destruct (upload_file_to_box _ _ _ w) as [[[[]|e] w1] t1]; cbn;
    rewrite ?app_nil_r; reflexivity.
Qed.

Lemma attempt_each_app (dest_folder_id : value)
  (l1 l2 : list (string * string)) (w : W) :
  attempt_each dest_folder_id (l1 ++ l2) w =
  (fst (attempt_each dest_folder_id l2
          (fst (attempt_each dest_folder_id l1 w))),
   snd (attempt_each dest_folder_id l1 w) ++
   snd (attempt_each dest_folder_id l2
          (fst (attempt_each dest_folder_id l1 w)))).
Proof.
  revert w. induction l1 as [|[root f] l1 IH]; intros w.
  - cbn. destruct (attempt_each dest_folder_id l2 w); reflexivity.
  - cbn [app attempt_each].
    destruct (upload_file_to_box _ _ _ w) as [[r w1] t1].
    rewrite IH.
    destruct (attempt_each dest_folder_id l1 w1) as [w2 t2]. cbn [fst snd].
    destruct (attempt_each dest_folder_id l2 w2) as [w3 t3]. cbn [fst snd].
    cbn [app]. rewrite <- ?app_assoc. reflexivity.
Qed.

Lemma for_each_upload_one (root : string) (dest_folder_id : value)
  (files : list string) (w : W) :
  for_each files (upload_one root dest_folder_id) w =
  (Ok tt,
   fst (attempt_each dest_folder_id (map (pair root) files) w),
   snd (attempt_each dest_folder_id (map (pair root) files) w)).
Proof.
  revert w. induction files as [|f files IH]; intros w; [reflexivity|].
  cbn [for_each map attempt_each]. unfold bind.
  rewrite upload_one_step.
  destruct (upload_file_to_box _ _ _ w) as [[r w1] t1].
  rewrite IH.
  destruct (attempt_each dest_folder_id (map (pair root) files) w1)
    as [w2 t2].
  cbn [fst snd app]. rewrite <- app_assoc. reflexivity.
Qed.

(** The two nested loops do, file by file, what [attempt_each] says. *)
Lemma traversal_attempt_each (dest_folder_id : value)
  (triples : list (string * list string * list string)) (w : W) :
  for_each triples (fun '(root, _, files) =>
    for_each files (upload_one root dest_folder_id)) w =
  (Ok tt,
   fst (attempt_each dest_folder_id (walked_files triples) w),
   snd (attempt_each dest_folder_id (walked_files triples) w)).
Proof.
  revert w.
  induction triples as [|[[root dirs] files] triples IH]; intros w;
    [reflexivity|].
  cbn [for_each]. unfold bind. rewrite for_each_upload_one, IH.
  unfold walked_files. cbn [map List.concat].
  rewrite attempt_each_app. reflexivity.
Qed.

Lemma walked_files_paths
  (triples : list (string * list string * list string)) :
  map (fun '(root, f) => os_path_join root f) (walked_files triples) =
  walked_paths triples.
Proof.
  unfold walked_files, walked_paths.
  induction triples as [|[[root dirs] files] triples IH]; [reflexivity|].
  cbn [map List.concat]. rewrite map_app, IH, map_map. reflexivity.
Qed.

(** For a readable file the router makes exactly one upload call, for
    that file and into the destination folder. *)
Lemma upload_file_to_box_one_call
  (source_file_path : string) (dest_file_name dest_folder_id : value)
  (size : Z) (w : W) :
  readable_file source_file_path size ->
  upload_calls
    (trace_of
       (upload_file_to_box source_file_path dest_file_name dest_folder_id
          w)) = [(source_file_path, dest_folder_id)].
Proof.
  intros [Hsz Hop]. unfold_prog.
  pose proof (Hsz w) as H1.
  destruct (w_getsize source_file_path w) as [r1 w1].
  cbn [fst] in H1. subst r1.
  destruct (size <? 20 * 1024 * 1024).
  - pose proof (Hop w1) as H2.
    destruct (w_open source_file_path "rb" w1) as [r2 w2].
    cbn [fst] in H2. subst r2.
    destruct (w_upload_file _ _ _ w2) as [[d|e] w3]; reflexivity.
  - pose proof (Hsz w1) as H2.
    destruct (w_getsize source_file_path w1) as [r2 w2].
    cbn [fst] in H2. subst r2.
    pose proof (Hop w2) as H3.
    destruct (w_open source_file_path "rb" w2) as [r3 w3].
    cbn [fst] in H3. subst r3.
    destruct (w_upload_big_file _ _ _ _ w3) as [[d|e] w4]; reflexivity.
Qed.

(** For a file whose size cannot be read the router raises at once. *)
Lemma upload_file_to_box_unreadable
  (source_file_path : string) (dest_file_name dest_folder_id : value)
  (e : exn) (w : W) :
  unreadable_file source_file_path e ->
  upload_file_to_box source_file_path dest_file_name dest_folder_id w =
  (Raise e, snd (w_getsize source_file_path w),
   [EGetSize source_file_path (Raise e)]).
Proof.
  intros H. specialize (H w). unfold_prog.
  destruct (w_getsize source_file_path w) as [r1 w1].
  cbn [fst] in H. subst r1. reflexivity.
Qed.

(** File by file: a readable file gets its one upload call, a file whose
    size cannot be read gets none, and the files after it get theirs. *)
Lemma attempt_each_upload_calls (dest_folder_id : value)
  (ok : string -> bool) (files : list (string * string)) :
  Forall (fun p => if ok p then exists size, readable_file p size
                   else exists e, unreadable_file p e)
         (map (fun '(root, f) => os_path_join root f) files) ->
  forall w : W,
    upload_calls (snd (attempt_each dest_folder_id files w)) =
    map (fun p => (p, dest_folder_id))
        (filter ok (map (fun '(root, f) => os_path_join root f) files)).
Proof.
  induction files as [|[root f] files IH]; intros Hall w; [reflexivity|].
  cbn [map] in Hall. inversion Hall as [|? ? Hp Hrest]; subst.
  cbn [attempt_each map filter].
  destruct (ok (os_path_join root f)).
  - destruct Hp as [size Hread].
    pose proof (upload_file_to_box_one_call (os_path_join root f) (VStr f)
                  dest_folder_id size w Hread) as Hcall.
    destruct (upload_file_to_box _ _ _ w) as [[r w1] t1].
    unfold trace_of in Hcall. cbn [snd] in Hcall.
    specialize (IH Hrest w1).
    destruct (attempt_each dest_folder_id files w1) as [w2 t2].
    cbn [snd] in IH |- *. cbn [upload_calls upload_args].
    rewrite !upload_calls_app, Hcall, IH.
    destruct r; reflexivity.
  - destruct Hp as [e Hbad].
    rewrite (upload_file_to_box_unreadable _ _ _ e w Hbad).
    specialize (IH Hrest (snd (w_getsize (os_path_join root f) w))).
    destruct (attempt_each dest_folder_id files _) as [w2 t2].
    cbn [snd] in IH |- *. cbn. exact IH.
Qed.


(** The traversal over a directory tree, file by file. *)
Lemma upload_all_files_to_box_file_by_file
  (source_folder : string) (dest_folder_id : value) (w : W)
  (t : tree) :
  w_tree source_folder w = Some t ->
  upload_all_files_to_box source_folder dest_folder_id w =
  (Ok tt,
   fst (attempt_each dest_folder_id
          (walked_files (os_walk source_folder t)) w),
   EWalk source_folder ::
   snd (attempt_each dest_folder_id
          (walked_files (os_walk source_folder t)) w)).
Proof.
  intros Htree. unfold upload_all_files_to_box. unfold bind at 1.
  unfold walk at 1. rewrite Htree, traversal_attempt_each. reflexivity.
Qed.

Lemma upload_all_files_to_box_upload_calls
  (source_folder : string) (dest_folder_id : value) (w : W)
  (t : tree) (ok : string -> bool) :
  w_tree source_folder w = Some t ->
  Forall (fun p => if ok p then exists size, readable_file p size
                   else exists e, unreadable_file p e)
         (file_paths source_folder t) ->
  upload_calls
    (trace_of (upload_all_files_to_box source_folder dest_folder_id w)) =
  map (fun p => (p, dest_folder_id)) (filter ok (file_paths source_folder t)).
Proof.
  intros Htree Hall.
  rewrite (upload_all_files_to_box_file_by_file _ _ _ _ Htree).
  unfold trace_of. cbn [snd upload_calls upload_args].
  rewrite <- walked_paths_os_walk, <- walked_files_paths in Hall |- *.
  apply attempt_each_upload_calls, Hall.
Qed.


End Bulk.

Section RemoteNames.

Context {W : Type} {world : World W}.


(** C3, as the code has it: each credential kept by the constructor, and
    handed to the authentication call, is the constructor argument when
    one is supplied and is neither [None] nor empty, and the value of the
    environment variable otherwise, [None] when that is not set. *)
Theorem Box_init_credentials
  (getenv : environ) (cid cs eid : option value) (w : W) :
  let a := credential_by_precedence cid (getenv "BOX_CLIENT_ID"%string) in
  let b := credential_by_precedence cs (getenv "BOX_CLIENT_SECRET"%string) in
  let c := credential_by_precedence eid (getenv "BOX_ENTERPRISE_ID"%string) in
  (exists r rest,
     trace_of (Box_init getenv cid cs eid w) = ECCGAuth a b c r :: rest) /\
  (forall self,
     result_of (Box_init getenv cid cs eid w) = Ok self ->
     client_id self = a /\ client_secret self = b /\ enterprise_id self = c).
Proof.
  intros a b c.
  assert (Hres : forall (arg : option value) (env : value),
            py_or (arg_or VNone arg) env = credential_by_precedence arg env).
  { intros [v|] env; unfold py_or, credential_by_precedence, arg_or;
      reflexivity. }
  unfold Box_init, authenticate, BOX_CLIENT_ID, BOX_CLIENT_SECRET,
    BOX_ENTERPRISE_ID.
  cbn [client_id client_secret enterprise_id].
  rewrite !Hres. fold a b c.
  unfold_prog.
  destruct (w_ccg_auth a b c w) as [[[]|e] w1]; cbn; split; eauto.
  - intros self H. injection H as <-. cbn. auto.
  - intros self H. discriminate.
Qed.

End RemoteNames.

(** ** Scenarios *)

Example basename_staged : basename "to_upload/trip/b.mp4" = "b.mp4"%string.
Proof. reflexivity. Qed.

Example os_path_join_staged :
  os_path_join "to_upload" "a.mp4" = "to_upload/a.mp4"%string /\
  os_path_join "to_upload/" "a.mp4" = "to_upload/a.mp4"%string /\
  os_path_join "to_upload" "/a.mp4" = "/a.mp4"%string.
Proof. repeat split. Qed.

Example os_walk_staged :
  os_walk "to_upload"
    (Dir [("a.mp4"%string, File);
          ("trip"%string, Dir [("b.mp4"%string, File)])]) =
  [("to_upload"%string, ["trip"%string], ["a.mp4"%string]);
   ("to_upload/trip"%string, [], ["b.mp4"%string])].
Proof. reflexivity. Qed.

(** A small file that uploads: size query, announcement, open, one
    single-request call, close, report. *)
Example upload_file_to_box_staged_small :
  upload_file_to_box (world := sim_world staging)
    "to_upload/a.mp4" (VStr "a.mp4") (VStr "303832684570") tt =
  (Ok tt, tt,
   [EGetSize "to_upload/a.mp4" (Ok 1024);
    EPrint (MsgUploadingSmall "to_upload/a.mp4");
    EOpen "to_upload/a.mp4" "rb" (Ok tt);
    EUploadFile (VStr "a.mp4") (VStr "303832684570") "to_upload/a.mp4"
      (Ok {| desc_name := "a.mp4"; desc_id := "1" |});
    EClose "to_upload/a.mp4";
    EPrint (MsgUploaded "a.mp4" "1")]).
Proof. reflexivity. Qed.

Lemma readable_in_staging (path : string) (size : Z) :
  sim_lookup path staging = Some size ->
  readable_file (world := sim_world staging) path size.
Proof.
  intros H. split; intros w; cbn; rewrite H; reflexivity.
Qed.

(** C1 at the boundary: the staged file of exactly 20971520 bytes goes
    through the chunked call. *)
Lemma upload_file_to_box_routes_by_size_witness :
  readable_file (world := sim_world staging) "to_upload/big.mp4" 20971520 /\
  uploads_of
    (trace_of
       (upload_file_to_box (world := sim_world staging)
          "to_upload/big.mp4" (VStr "big.mp4") (VStr "303832684570") tt)) =
  [Chunked].
Proof.
  split.
  - apply readable_in_staging. reflexivity.
  - apply (upload_file_to_box_routes_by_size (world := sim_world staging)
             "to_upload/big.mp4" (VStr "big.mp4") (VStr "303832684570")
             20971520 tt).
    + apply readable_in_staging. reflexivity.
    + reflexivity.
Defined.

(** C9 on a path that is not there. *)
Lemma upload_file_to_box_size_failure_propagates_witness :
  upload_file_to_box (world := sim_world staging)
    "to_upload/missing.mp4" (VStr "missing.mp4") (VStr "0") tt =
  (Raise (no_such_file "to_upload/missing.mp4"), tt,
   [EGetSize "to_upload/missing.mp4"
      (Raise (no_such_file "to_upload/missing.mp4"))]).
Proof.
  apply (upload_file_to_box_size_failure_propagates
           (world := sim_world staging)).
  reflexivity.
Defined.

(** C2 refuted: with the storage service out of reach the single-request
    helper returns [None] for the staged small file, and the router, given
    the same file, returns normally instead of raising. *)
Lemma upload_file_to_box_sentinel_does_not_raise :
  result_of
    (upload_small_file_to_folder (world := sim_world offline)
       "to_upload/a.mp4" (Some (VStr "0")) (Some (VStr "a.mp4")) tt) =
  Ok None /\
  ~ exists e,
      result_of
        (upload_file_to_box (world := sim_world offline)
           "to_upload/a.mp4" (VStr "a.mp4") (VStr "0") tt) = Raise e.
Proof.
  split; [reflexivity|]. intros [e H]. vm_compute in H. discriminate.
Qed.

Lemma upload_file_to_box_skips_sentinel_witness :
  upload_file_to_box (world := sim_world offline)
    "to_upload/a.mp4" (VStr "a.mp4") (VStr "0") tt =
  (Ok tt, tt,
   [EGetSize "to_upload/a.mp4" (Ok 1024);
    EPrint (MsgUploadingSmall "to_upload/a.mp4");
    EOpen "to_upload/a.mp4" "rb" (Ok tt);
    EUploadFile (VStr "a.mp4") (VStr "0") "to_upload/a.mp4"
      (Raise connection_error);
    EClose "to_upload/a.mp4";
    EPrint (MsgFailedUpload "to_upload/a.mp4" connection_error)]).
Proof.
  apply (upload_file_to_box_skips_sentinel (world := sim_world offline)
           "to_upload/a.mp4" (VStr "a.mp4") (VStr "0") 1024 tt tt tt
           [EOpen "to_upload/a.mp4" "rb" (Ok tt);
            EUploadFile (VStr "a.mp4") (VStr "0") "to_upload/a.mp4"
              (Raise connection_error);
            EClose "to_upload/a.mp4";
            EPrint (MsgFailedUpload "to_upload/a.mp4" connection_error)]);
    reflexivity.
Defined.

(** C3 refuted: with BOX_CLIENT_ID set in the environment and a client id
    passed to the constructor, the instance keeps the constructor's. *)
Lemma Box_init_argument_overrides_environment :
  BOX_CLIENT_ID credentials_set = VStr "env-id" /\
  exists self,
    result_of
      (Box_init (world := sim_world staging) credentials_set
         (Some (VStr "ctor-id")) None None tt) = Ok self /\
    client_id self = VStr "ctor-id" /\
    client_id self <> BOX_CLIENT_ID credentials_set.
Proof.
  split; [reflexivity|]. eexists. split; [reflexivity|].
  split; [reflexivity|]. discriminate.
Qed.

Lemma Box_init_credentials_witness :
  exists self,
    result_of
      (Box_init (world := sim_world staging) credentials_set
         (Some (VStr "ctor-id")) (Some (VStr "")) None tt) = Ok self /\
    client_id self = VStr "ctor-id" /\
    client_secret self = VStr "env-secret" /\
    enterprise_id self = VStr "env-enterprise".
Proof.
  eexists. split; [reflexivity|].
  apply (Box_init_credentials (world := sim_world staging) credentials_set
           (Some (VStr "ctor-id")) (Some (VStr "")) None tt).
  reflexivity.
Defined.

(** C5: on a path that is not there, the chunked helper raises from its
    size query, outside its [try]; the single-request helper, given the
    same path, prints the failure and returns [None]. *)
Lemma upload_large_file_to_folder_missing_file_raises :
  upload_large_file_to_folder (world := sim_world staging)
    "to_upload/missing.mp4" (VStr "missing.mp4") (VStr "0") tt =
  (Raise (no_such_file "to_upload/missing.mp4"), tt,
   [EGetSize "to_upload/missing.mp4"
      (Raise (no_such_file "to_upload/missing.mp4"))]) /\
  upload_small_file_to_folder (world := sim_world staging)
    "to_upload/missing.mp4" (Some (VStr "0")) (Some (VStr "missing.mp4")) tt =
  (Ok None, tt,
   [EOpen "to_upload/missing.mp4" "rb"
      (Raise (no_such_file "to_upload/missing.mp4"));
    EPrint (MsgFailedUpload "to_upload/missing.mp4"
              (no_such_file "to_upload/missing.mp4"))]).
Proof.
  split; reflexivity.
Qed.




Lemma upload_small_file_to_folder_default_folder_witness :
  exists name r,
    In (EUploadFile name (VStr "0") "to_upload/a.mp4" r)
       (trace_of
          (upload_small_file_to_folder (world := sim_world staging)
             "to_upload/a.mp4" None None tt)).
Proof.
  apply (proj1 (proj2 (upload_small_file_to_folder_default_folder
                         (world := sim_world staging) credentials_set
                         None None None "to_upload/a.mp4" None tt)) tt).
  reflexivity.
Defined.

(** ** The camera flow *)

Lemma downloaded_app (t1 t2 : list event) :
  downloaded (t1 ++ t2) = downloaded t1 ++ downloaded t2.
Proof.
  induction t1 as [|e t1 IH]; [reflexivity|].
  destruct e as [| | | | | | | | | | |c l [u|x]|]; cbn; rewrite IH;
    reflexivity.
Qed.

Lemma before_delete_app (t1 t2 : list event) (r : result unit) :
  Forall (fun ev => is_delete ev = false) t1 ->
  before_delete (t1 ++ EDeleteAll r :: t2) = t1.
Proof.
  induction 1 as [|e t1 He _ IH]; [reflexivity|].
  cbn. rewrite He, IH. reflexivity.
Qed.

Lemma filter_is_delete_none (t : list event) :
  Forall (fun ev => is_delete ev = false) t -> filter is_delete t = [].
Proof.
  induction 1 as [|e t He _ IH]; [reflexivity|].
  cbn. rewrite He. exact IH.
Qed.

Section Camera.

Context {W : Type} {world : World W}.

Lemma download_one_downloads (fs : media_item) :
  downloads_exactly (W:=W) [filename fs] (download_one fs).
Proof.
  intros w. unfold download_one, download_file, bind, call, print, emit,
    result_of, trace_of.
  destruct (w_download_file _ _ w) as [[[]|e] w1]; cbn.
  - split; [repeat constructor|].
    split; [reflexivity|]. repeat constructor; intros e H; exact H.
  - split; [repeat constructor|].
    repeat constructor; cbn; intros e' H; try contradiction.
    symmetry. exact H.
Qed.

Lemma for_each_downloads {A : Type} (g : A -> list string) (l : list A)
  (body : A -> M (W:=W) unit) :
  (forall x, In x l -> downloads_exactly (g x) (body x)) ->
  downloads_exactly (List.concat (map g l)) (for_each l body).
Proof.
  induction l as [|x l IH]; intros Hbody w.
  - unfold result_of, trace_of. cbn. repeat constructor.
  - cbn [for_each map List.concat]. rewrite bind_run.
    destruct (Hbody x (or_introl eq_refl) w) as [Hd Hx].
    destruct (IH (fun y Hy => Hbody y (or_intror Hy))
                 (world_of (body x w))) as [Hd' Hl].
    destruct (body x w) as [[[[]|e] w1] t1];
      unfold result_of, world_of, trace_of in *; cbn [fst snd] in *.
    + split; [apply Forall_app; split; assumption|].
      destruct (for_each l body w1) as [[[[]|e] w2] t2]; cbn [fst snd] in *.
      * destruct Hx as [Hx1 Hx2], Hl as [Hl1 Hl2].
        split; [rewrite downloaded_app; congruence|].
        apply Forall_app; split; assumption.
      * destruct Hx as [_ Hx2]. apply Forall_app. split; [|exact Hl].
        eapply Forall_impl; [|exact Hx2].
        intros ev Hev e' Hf. destruct (Hev e' Hf).
    + split; assumption.
Qed.

Lemma download_loop_downloads (media_list : list media_group) :
  downloads_exactly (W:=W) (manifest_files media_list)
    (for_each media_list (fun group =>
       for_each (file_system group) download_one)).
Proof.
  unfold manifest_files. apply for_each_downloads.
  intros group _. rewrite <- concat_map_singleton.
  apply for_each_downloads. intros fs _. apply download_one_downloads.
Qed.

(** The runs of [main]: the session does not open; the manifest query
    raises; a download raises; or all downloads complete and the bulk
    delete is issued, once, after them. *)
Lemma main_run (w : W) :
  let out := main w in
  (exists e, trace_of out = [EGoProOpen (Raise e)] /\
             result_of out = Raise e) \/
  (exists e,
     trace_of out =
       [EGoProOpen (Ok tt); EPrint MsgConnected; EGetMediaList (Raise e);
        EGoProClose] /\
     result_of out = Raise e) \/
  (exists groups loop e,
     trace_of out =
       EGoProOpen (Ok tt) :: EPrint MsgConnected ::
       EGetMediaList (Ok groups) :: loop ++ [EGoProClose] /\
     result_of out = Raise e /\
     Forall (fun ev => is_delete ev = false) loop /\
     Forall (fun ev => forall e', acquisition_failed e' ev -> e' = e) loop) \/
  (exists groups loop r rest,
     trace_of out =
       (EGoProOpen (Ok tt) :: EPrint MsgConnected ::
        EGetMediaList (Ok groups) :: loop ++ [EPrint MsgDeleting]) ++
       EDeleteAll r :: rest /\
     Forall (fun ev => is_delete ev = false) loop /\
     Forall (fun ev => is_delete ev = false) rest /\
     downloaded loop = manifest_files groups /\
     Forall (fun ev => forall e, ~ acquisition_failed e ev) loop /\
     Forall (fun ev => forall e, ~ acquisition_failed e ev) rest).
Proof.
  intros out. assert (Hout : out = main w) by reflexivity. clearbody out.
  unfold main, with_gopro, get_media_list, delete_all, finally, bind, call,
    print, emit in Hout.
  destruct (w_gopro_open w) as [[[]|e] w1];
    [|left; exists e; subst out; split; reflexivity].
  right.
  destruct (w_get_media_list w1) as [[groups|e] w2];
    [|left; exists e; subst out; split; reflexivity].
  right.
  destruct (download_loop_downloads groups w2) as [Hd Hl].
  destruct (for_each groups _ w2) as [[[[]|e] w3] loop];
    unfold result_of, trace_of in Hd, Hl; cbn [fst snd] in Hd, Hl.
  - right. destruct Hl as [Hl1 Hl2].
    destruct (w_delete_all w3) as [[[]|e] w4]; subst out;
      unfold trace_of, result_of; cbn [fst snd app].
    + exists groups, loop, (Ok tt), [EPrint MsgAllDeleted; EGoProClose].
      split; [cbn; rewrite <- !app_assoc; reflexivity|].
      repeat split; auto; repeat constructor; intros e H; exact H.
    + exists groups, loop, (Raise e), [EGoProClose].
      split; [cbn; rewrite <- !app_assoc; reflexivity|].
      repeat split; auto; repeat constructor; intros e' H; exact H.
  - left. exists groups, loop, e. subst out. unfold trace_of, result_of. cbn.
    repeat split; auto.
Qed.

(** C6: in [main] the bulk delete is issued at most once; when it is
    issued, the manifest query returned before it and the downloads
    completed before it are exactly the files of every media group, in
    order, none having failed; and when the manifest query or a download
    raises, [main] raises that exception and issues no bulk delete. *)
Theorem main_deletes_only_after_all_downloads (w : W) :
  let tr := trace_of (main w) in
  (List.length (filter is_delete tr) <= 1)%nat /\
  (filter is_delete tr <> [] ->
   exists groups,
     In (EGetMediaList (Ok groups)) (before_delete tr) /\
     downloaded (before_delete tr) = manifest_files groups /\
     Forall (fun ev => forall e, ~ acquisition_failed e ev)
            (before_delete tr)) /\
  (forall ev e,
     In ev tr -> acquisition_failed e ev ->
     result_of (main w) = Raise e /\ filter is_delete tr = []).
Proof.
  intros tr. subst tr.
  destruct (main_run w) as
    [(e & Ht & Hr) | [(e & Ht & Hr) | [(groups & loop & e & Ht & Hr & Hd & Hf)
     | (groups & loop & r & rest & Ht & Hd & Hrest & Hdl & Hok & Hokr)]]];
    rewrite Ht.
  - cbn. split; [lia|]. split; [congruence|].
    intros ev e' [<-|[]] [].
  - cbn. split; [lia|]. split; [congruence|].
    intros ev e' [<-|[<-|[<-|[<-|[]]]]] H; cbn in H; try contradiction.
    subst. split; [exact Hr|reflexivity].
  - assert (Hnone : filter is_delete
              (EGoProOpen (Ok tt) :: EPrint MsgConnected ::
               EGetMediaList (Ok groups) :: loop ++ [EGoProClose]) = []).
    { cbn. rewrite filter_app, (filter_is_delete_none _ Hd). reflexivity. }
    rewrite Hnone. cbn [List.length]. split; [lia|]. split; [congruence|].
    intros ev e' Hin Hfail. split; [|reflexivity].
    destruct Hin as [<-|[<-|[<-|Hin]]]; try contradiction.
    apply in_app_or in Hin as [Hin|[<-|[]]]; [|contradiction].
    rewrite Forall_forall in Hf. rewrite (Hf _ Hin _ Hfail). exact Hr.
  - assert (Hpre : Forall (fun ev => is_delete ev = false)
              (EGoProOpen (Ok tt) :: EPrint MsgConnected ::
               EGetMediaList (Ok groups) :: loop ++ [EPrint MsgDeleting])).
    { repeat constructor. apply Forall_app. split; [exact Hd|].
      repeat constructor. }
    split; [|split].
    + rewrite filter_app, (filter_is_delete_none _ Hpre). cbn.
      rewrite (filter_is_delete_none _ Hrest). cbn. lia.
    + intros _. rewrite (before_delete_app _ _ _ Hpre).
      exists groups. split; [right; right; left; reflexivity|].
      split.
      * cbn. rewrite downloaded_app. cbn. rewrite app_nil_r. exact Hdl.
      * repeat constructor; try (intros e H; exact H).
        apply Forall_app. split; [exact Hok|].
        repeat constructor. intros e H; exact H.
    + intros ev e Hin Hfail. exfalso.
      apply in_app_or in Hin as [Hin|[<-|Hin]].
      * destruct Hin as [<-|[<-|[<-|Hin]]]; try contradiction.
        apply in_app_or in Hin as [Hin|[<-|[]]]; [|contradiction].
        rewrite Forall_forall in Hok. exact (Hok _ Hin _ Hfail).
      * contradiction.
      * rewrite Forall_forall in Hokr. exact (Hokr _ Hin _ Hfail).
Qed.

End Camera.

Lemma main_deletes_only_after_all_downloads_witness :
  result_of (main (world := sim_world flaky_camera) tt) =
    Raise connection_error /\
  filter is_delete (trace_of (main (world := sim_world flaky_camera) tt)) =
    [].
Proof.
  apply (proj2 (proj2 (main_deletes_only_after_all_downloads
                         (world := sim_world flaky_camera) tt))
           (EDownloadFile "100GOPRO/GX010002.MP4"
              "to_upload/GX010002.MP4" (Raise connection_error))).
  - vm_compute. tauto.
  - reflexivity.
Defined.

(** When every download completes, the flow ends with the bulk delete. *)
Lemma main_staging_run :
  main (world := sim_world staging) tt =
  (Ok tt, tt,
   [EGoProOpen (Ok tt);
    EPrint MsgConnected;
    EGetMediaList (sim_media staging);
    EPrint (MsgDownloading "100GOPRO/GX010001.MP4" "to_upload/GX010001.MP4");
    EDownloadFile "100GOPRO/GX010001.MP4" "to_upload/GX010001.MP4" (Ok tt);
    EPrint (MsgDownloaded "to_upload/GX010001.MP4");
    EPrint (MsgDownloading "100GOPRO/GX010002.MP4" "to_upload/GX010002.MP4");
    EDownloadFile "100GOPRO/GX010002.MP4" "to_upload/GX010002.MP4" (Ok tt);
    EPrint (MsgDownloaded "to_upload/GX010002.MP4");
    EPrint MsgDeleting;
    EDeleteAll (Ok tt);
    EPrint MsgAllDeleted;
    EGoProClose]).
Proof. reflexivity. Qed.

(** ** Construction and the script *)

Section Construction.

Context {W : Type} {world : World W}.

Lemma Box_init_raises
  (getenv : environ) (cid cs eid : option value) (w w1 : W) (e : exn) :
  let a := credential_by_precedence cid (getenv "BOX_CLIENT_ID"%string) in
  let b := credential_by_precedence cs (getenv "BOX_CLIENT_SECRET"%string) in
  let c := credential_by_precedence eid (getenv "BOX_ENTERPRISE_ID"%string) in
  w_ccg_auth a b c w = (Raise e, w1) ->
  Box_init getenv cid cs eid w =
  (Raise e, w1, [ECCGAuth a b c (Raise e); EPrint (MsgAuthError e)]).
Proof.
  intros a b c Hauth.
  assert (Hres : forall (arg : option value) (env : value),
            py_or (arg_or VNone arg) env = credential_by_precedence arg env).
  { intros [v|] env; reflexivity. }
  unfold Box_init, authenticate, BOX_CLIENT_ID, BOX_CLIENT_SECRET,
    BOX_ENTERPRISE_ID.
  cbn [client_id client_secret enterprise_id].
  rewrite !Hres. fold a b c.
  unfold_prog. rewrite Hauth. reflexivity.
Qed.

(** X1: when the authentication call raises, the constructor prints the error
    and raises the same exception; no instance is built and the client
    line is not printed. *)
Theorem Box_init_authentication_failure
  (getenv : environ) (cid cs eid : option value) (w w1 : W) (e : exn) :
  let a := credential_by_precedence cid (getenv "BOX_CLIENT_ID"%string) in
  let b := credential_by_precedence cs (getenv "BOX_CLIENT_SECRET"%string) in
  let c := credential_by_precedence eid (getenv "BOX_ENTERPRISE_ID"%string) in
  w_ccg_auth a b c w = (Raise e, w1) ->
  Box_init getenv cid cs eid w =
  (Raise e, w1, [ECCGAuth a b c (Raise e); EPrint (MsgAuthError e)]).
Proof.
  exact (Box_init_raises getenv cid cs eid w w1 e).
Qed.

(** X2: an instance the constructor returns is authenticated: its client and
    auth are set, the authentication call returned, and its folder ids and
    template key are the fixed ones. *)
Theorem Box_init_instance
  (getenv : environ) (cid cs eid : option value) (w : W) (self : Box) :
  result_of (Box_init getenv cid cs eid w) = Ok self ->
  client self = Some tt /\
  auth self = Some tt /\
  videos_folder_box_id self = "303832684570"%string /\
  box_road_health_folder_id self = "309237796489"%string /\
  box_metadata_template_key self = "folderWatcherMetadata"%string /\
  trace_of (Box_init getenv cid cs eid w) =
    [ECCGAuth (client_id self) (client_secret self) (enterprise_id self)
       (Ok tt);
     EPrint MsgAuthenticated; EPrint MsgClient].
Proof.
  unfold Box_init, authenticate. unfold_prog.
  cbn [client_id client_secret enterprise_id].
  destruct (w_ccg_auth _ _ _ w) as [[[]|e] w1]; cbn; [|discriminate].
  intros H. injection H as <-. cbn. repeat split.
Qed.

(** X3: when authentication fails, the script stops there: it raises the
    exception after the two authentication events, without walking the
    staging directory or calling the storage service. *)
Theorem script_authentication_failure
  (getenv : environ) (w w1 : W) (e : exn) :
  w_ccg_auth (getenv "BOX_CLIENT_ID"%string)
    (getenv "BOX_CLIENT_SECRET"%string)
    (getenv "BOX_ENTERPRISE_ID"%string) w = (Raise e, w1) ->
  script getenv w =
  (Raise e, w1,
   [ECCGAuth (getenv "BOX_CLIENT_ID"%string)
      (getenv "BOX_CLIENT_SECRET"%string)
      (getenv "BOX_ENTERPRISE_ID"%string) (Raise e);
    EPrint (MsgAuthError e)]).
Proof.
  intros Hauth. unfold script. unfold bind at 1.
  rewrite (Box_init_raises getenv None None None w w1 e Hauth).
  reflexivity.
Qed.

End Construction.

(** ** More on the uploads *)

Section MoreUploads.

Context {W : Type} {world : World W}.

Lemma upload_one_events (P : event -> Prop) (root : string)
  (dest_folder_id : value) (file_name : string) (w : W) :
  (forall m, P (EPrint m)) ->
  Forall P
    (trace_of
       (upload_file_to_box (os_path_join root file_name) (VStr file_name)
          dest_folder_id w)) ->
  Forall P (trace_of (upload_one root dest_folder_id file_name w)).
Proof.
  intros Hprint Hrouter.
  destruct (upload_one_run root dest_folder_id file_name w)
    as (tail & _ & Ht & Htail).
  rewrite Ht. constructor; [apply Hprint|].
  apply Forall_app. split; [exact Hrouter|].
  eapply Forall_impl; [|exact Htail].
  intros ev (m & -> & _). apply Hprint.
Qed.

Lemma upload_all_files_to_box_events (P : event -> Prop)
  (source_folder : string) (dest_folder_id : value) :
  (forall m, P (EPrint m)) ->
  P (EWalk source_folder) ->
  (forall path name (w : W),
     Forall P (trace_of (upload_file_to_box path name dest_folder_id w))) ->
  forall w : W,
    Forall P
      (trace_of (upload_all_files_to_box source_folder dest_folder_id w)).
Proof.
  intros Hprint Hwalk Hrouter w.
  unfold upload_all_files_to_box. rewrite bind_run.
  unfold walk. unfold trace_of at 1. cbn [fst snd app].
  constructor; [exact Hwalk|].
  apply for_each_events. intros [[root dirs] files] _.
  apply for_each_events. intros f _ w'.
  apply upload_one_events; [exact Hprint|apply Hrouter].
Qed.

(** Every upload call of the router is for the source file and goes to
    the destination folder it was given. *)
Lemma upload_file_to_box_target
  (source_file_path : string) (dest_file_name dest_folder_id : value)
  (w : W) :
  Forall (fun e => upload_into dest_folder_id e /\
                   upload_from source_file_path e)
    (trace_of
       (upload_file_to_box source_file_path dest_file_name dest_folder_id w)).
Proof.
  run_prog;
    repeat first [apply Forall_nil | apply Forall_cons];
    unfold upload_into, upload_from; cbn; auto.
Qed.

(** X5: every upload call of the router is for the source file and into the
    destination folder; every upload call of the traversal goes into the
    one destination folder it was given, whatever the tree. *)
Theorem upload_all_files_to_box_destination
  (source_file_path : string) (dest_file_name : value)
  (source_folder : string) (dest_folder_id : value) (w : W) :
  Forall (fun e => upload_into dest_folder_id e /\
                   upload_from source_file_path e)
    (trace_of
       (upload_file_to_box source_file_path dest_file_name dest_folder_id
          w)) /\
  Forall (upload_into dest_folder_id)
    (trace_of (upload_all_files_to_box source_folder dest_folder_id w)).
Proof.
  split; [apply upload_file_to_box_target|].
  apply upload_all_files_to_box_events.
  - intros m. exact I.
  - exact I.
  - intros path name w'.
    eapply Forall_impl; [|apply upload_file_to_box_target].
    intros e [H _]. exact H.
Qed.

(** X6: the traversal leaves the local filesystem as it is: none of its
    events creates, writes or deletes a local file, and every file it
    opens is opened with mode "rb". *)
Theorem upload_all_files_to_box_does_not_mutate_local_fs
  (source_folder : string) (dest_folder_id : value) (w : W) :
  Forall (fun e => mutates_local_fs e = false /\ opens_read_only e)
    (trace_of (upload_all_files_to_box source_folder dest_folder_id w)).
Proof.
  apply upload_all_files_to_box_events.
  - intros m. split; [reflexivity|exact I].
  - split; [reflexivity|exact I].
  - intros path name w'.
    eapply Forall_impl; [|apply upload_file_to_box_events].
    intros e (_ & H1 & H2). split; assumption.
Qed.

(** X7: an exception leaves the router only from a size query: either its own
    query raised, or its query returned a size of 20 MiB or more and the
    chunked helper's query raised.  A failed open or a failed upload call
    never leaves the router. *)
Theorem upload_file_to_box_raises_only_from_size_query
  (source_file_path : string) (dest_file_name dest_folder_id : value)
  (w : W) (e : exn) :
  result_of
    (upload_file_to_box source_file_path dest_file_name dest_folder_id w) =
  Raise e ->
  let tr := trace_of
    (upload_file_to_box source_file_path dest_file_name dest_folder_id w) in
  tr = [EGetSize source_file_path (Raise e)] \/
  exists size,
    20 * 1024 * 1024 <= size /\
    tr = [EGetSize source_file_path (Ok size);
          EGetSize source_file_path (Raise e)].
Proof.
  run_prog; intros H; try discriminate; injection H as <-.
  - right. eexists. split; [|reflexivity].
    apply Z.ltb_ge. assumption.
  - left. reflexivity.
Qed.

Lemma upload_all_files_to_box_walk
  (source_folder : string) (dest_folder_id : value) (w : W) :
  result_of (upload_all_files_to_box source_folder dest_folder_id w) =
    Ok tt /\
  upload_attempts
    (trace_of (upload_all_files_to_box source_folder dest_folder_id w)) =
  walked_paths (match w_tree source_folder w with
                | Some t => os_walk source_folder t
                | None => []
                end).
Proof.
  unfold upload_all_files_to_box. rewrite bind_run.
  unfold walk. cbn [fst snd].
  destruct (traversal_attempts dest_folder_id
              (match w_tree source_folder w with
               | Some t => os_walk source_folder t
               | None => []
               end) w) as [Hr Ht].
  split; [exact Hr|].
  unfold trace_of at 1. cbn [snd app upload_attempts].
  specialize (Ht []). rewrite !app_nil_r in Ht. exact Ht.
Qed.

(** X4: once authentication has returned, the script returns normally and
    every upload call it makes goes to folder "303832684570".  Over a
    staging directory tree its upload attempts are the paths of the files
    of the tree, each once; and when those files are readable, its upload
    calls are one for each file of the tree, in order, each into folder
    "303832684570". *)
Theorem script_uploads_staging_directory
  (getenv : environ) (w w1 : W) :
  w_ccg_auth (getenv "BOX_CLIENT_ID"%string)
    (getenv "BOX_CLIENT_SECRET"%string)
    (getenv "BOX_ENTERPRISE_ID"%string) w = (Ok tt, w1) ->
  result_of (script getenv w) = Ok tt /\
  Forall (upload_into (VStr "303832684570"))
    (trace_of (script getenv w)) /\
  forall es,
    w_tree "to_upload" w1 = Some (Dir es) ->
    upload_attempts (trace_of (script getenv w)) =
      file_paths "to_upload" (Dir es) /\
    (Forall (fun p => exists size, readable_file p size)
            (file_paths "to_upload" (Dir es)) ->
     upload_calls (trace_of (script getenv w)) =
     map (fun p => (p, VStr "303832684570"))
         (file_paths "to_upload" (Dir es))).
Proof.
  intros Hauth.
  assert (Hinit : exists self,
    Box_init getenv None None None w =
      (Ok self, w1,
       [ECCGAuth (getenv "BOX_CLIENT_ID"%string)
          (getenv "BOX_CLIENT_SECRET"%string)
          (getenv "BOX_ENTERPRISE_ID"%string) (Ok tt);
        EPrint MsgAuthenticated; EPrint MsgClient]) /\
    videos_folder_box_id self = "303832684570"%string).
  { unfold Box_init, authenticate, BOX_CLIENT_ID, BOX_CLIENT_SECRET,
      BOX_ENTERPRISE_ID.
    cbn [client_id client_secret enterprise_id arg_or].
    unfold py_or. cbn [truthy].
    unfold_prog. rewrite Hauth. cbn. eexists. split; reflexivity. }
  destruct Hinit as (self & Hinit & Hfolder).
  unfold script. rewrite bind_run, Hinit, Hfolder.
  pose proof (upload_all_files_to_box_walk
                "to_upload" (VStr "303832684570") w1) as [Hr Ht].
  split; [exact Hr|]. split.
  - unfold trace_of at 1. cbn [snd].
    repeat constructor.
    apply upload_all_files_to_box_events.
    + intros m. exact I.
    + exact I.
    + intros path name w'.
      eapply Forall_impl; [|apply upload_file_to_box_target].
      intros ev [H _]. exact H.
  - intros es Htree. split.
    + unfold trace_of at 1. cbn [snd app upload_attempts].
      rewrite Ht, Htree. apply walked_paths_os_walk.
    + intros Hall. unfold trace_of at 1.
      cbn [snd app upload_calls upload_args].
      rewrite (upload_all_files_to_box_upload_calls
                 "to_upload" (VStr "303832684570") w1 (Dir es)
                 (fun _ => true) Htree).
      * f_equal. clear. induction (file_paths "to_upload" (Dir es)) as [|p l IH];
          [reflexivity|]. cbn. rewrite IH. reflexivity.
      * eapply Forall_impl; [|exact Hall]. intros p H. exact H.
Qed.

End MoreUploads.

(** ** File handles *)

Lemma brackets_app (t1 : list event) :
  forall (opened : option string) (t2 : list event),
    brackets opened t1 = true ->
    brackets opened (t1 ++ t2) = brackets None t2.
Proof.
  induction t1 as [|e t1 IH]; intros opened t2 H.
  - destruct opened; [discriminate|reflexivity].
  - destruct e as [| | p m [u|x] | p | | n f p r | p n s f r | | | | | |];
      destruct opened as [q|]; cbn in H |- *;
      try discriminate; try (apply IH; exact H);
      apply andb_prop in H as [-> H]; cbn; apply IH; exact H.
Qed.

Lemma brackets_prints (t : list event) :
  Forall (fun e => exists m, e = EPrint m /\ is_banner e = false) t ->
  brackets None t = true.
Proof.
  induction 1 as [|e t (m & -> & _) _ IH]; [reflexivity|exact IH].
Qed.

Section Handles.

Context {W : Type} {world : World W}.

Lemma for_each_brackets {A : Type} (l : list A)
  (body : A -> M (W:=W) unit) :
  (forall x w, brackets None (trace_of (body x w)) = true) ->
  forall w, brackets None (trace_of (for_each l body w)) = true.
Proof.
  intros Hbody. induction l as [|x l IH]; intros w; [reflexivity|].
  cbn [for_each]. rewrite bind_run.
  pose proof (Hbody x w) as Hx.
  destruct (body x w) as [[[[]|e] w1] t1]; unfold trace_of in *;
    cbn [snd] in *.
  - rewrite (brackets_app _ _ _ Hx). apply IH.
  - exact Hx.
Qed.

Lemma upload_file_to_box_brackets
  (source_file_path : string) (dest_file_name dest_folder_id : value)
  (w : W) :
  brackets None
    (trace_of
       (upload_file_to_box source_file_path dest_file_name dest_folder_id
          w)) = true.
Proof.
  run_prog; rewrite ?String.eqb_refl; reflexivity.
Qed.

(** X8: every file the uploads open is closed again, on every path: in the
    traces of the two helpers, the router and the whole traversal, files
    are opened one at a time, each successful open is followed by its
    close, and the storage service is handed a file only between the
    two. *)
Theorem uploads_close_every_file
  (file_path : string) (name folder : value)
  (folder_id new_name : option value)
  (source_folder : string) (w : W) :
  brackets None
    (trace_of (upload_small_file_to_folder file_path folder_id new_name w))
    = true /\
  brackets None
    (trace_of (upload_large_file_to_folder file_path name folder w))
    = true /\
  brackets None (trace_of (upload_file_to_box file_path name folder w))
    = true /\
  brackets None
    (trace_of (upload_all_files_to_box source_folder folder w)) = true.
Proof.
  repeat split.
  - run_prog; rewrite ?String.eqb_refl; reflexivity.
  - run_prog; rewrite ?String.eqb_refl; reflexivity.
  - apply upload_file_to_box_brackets.
  - unfold upload_all_files_to_box. rewrite bind_run.
    unfold walk. unfold trace_of at 1. cbn [fst snd app brackets].
    apply for_each_brackets. intros [[root dirs] files] w1.
    apply for_each_brackets. intros f w2.
    destruct (upload_one_run root folder f w2) as (tail & _ & Ht & Htail).
    rewrite Ht. cbn [brackets].
    rewrite (brackets_app _ _ _ (upload_file_to_box_brackets _ _ _ w2)).
    apply brackets_prints, Htail.
Qed.

(** ** Outcomes of the helpers and the router *)

(** X9: the single-request helper returns the descriptor the storage service
    returned, after closing the file and without printing; it returns
    [None] when the open or the upload call raised, and then its last
    event is the one line that reports the path and that exception,
    printed after the file, if it was opened, has been closed. *)
Theorem upload_small_file_to_folder_outcome
  (file_path : string) (folder_id new_name : option value) (w : W) :
  let out := upload_small_file_to_folder file_path folder_id new_name w in
  (forall d,
     result_of out = Ok (Some d) ->
     exists name parent,
       trace_of out =
         [EOpen file_path "rb" (Ok tt);
          EUploadFile name parent file_path (Ok d);
          EClose file_path]) /\
  (result_of out = Ok None ->
   exists e,
     trace_of out =
       [EOpen file_path "rb" (Raise e);
        EPrint (MsgFailedUpload file_path e)] \/
     exists name parent,
       trace_of out =
         [EOpen file_path "rb" (Ok tt);
          EUploadFile name parent file_path (Raise e);
          EClose file_path;
          EPrint (MsgFailedUpload file_path e)]).
Proof.
  intros out. subst out. split.
  - intros d. run_prog; intros H; try discriminate.
    injection H as <-. eauto.
  - run_prog; intros H; try discriminate; eauto.
Qed.

(** X10: the chunked helper declares to the storage service the size its own
    size query returned; when that query raises, it does nothing else. *)
Theorem upload_large_file_to_folder_declares_queried_size
  (file_path : string) (file_name parent_folder_id : value) (w : W) :
  exists r rest,
    trace_of
      (upload_large_file_to_folder file_path file_name parent_folder_id w) =
    EGetSize file_path r :: rest /\
    match r with
    | Ok size => Forall (declares_size size) rest
    | Raise _ => rest = []
    end.
Proof.
  run_prog; eexists; eexists; (split; [reflexivity|]);
    repeat first [apply Forall_nil | apply Forall_cons | reflexivity];
    cbn; auto.
Qed.

(** X11: for a readable file of 20 MiB or more, the router's chunked call
    declares exactly the file's size. *)
Theorem upload_file_to_box_declares_file_size
  (source_file_path : string) (dest_file_name dest_folder_id : value)
  (size : Z) (w : W) :
  readable_file source_file_path size ->
  20 * 1024 * 1024 <= size ->
  exists r,
    In (EUploadBigFile source_file_path dest_file_name size dest_folder_id r)
       (trace_of
          (upload_file_to_box source_file_path dest_file_name dest_folder_id
             w)).
Proof.
  intros [Hsz Hop] Hge. unfold_prog.
  pose proof (Hsz w) as H1.
  destruct (w_getsize source_file_path w) as [r1 w1].
  cbn [fst] in H1. subst r1.
  apply Z.ltb_ge in Hge. rewrite Hge.
  pose proof (Hsz w1) as H2.
  destruct (w_getsize source_file_path w1) as [r2 w2].
  cbn [fst] in H2. subst r2.
  pose proof (Hop w2) as H3.
  destruct (w_open source_file_path "rb" w2) as [r3 w3].
  cbn [fst] in H3. subst r3.
  destruct (w_upload_big_file _ _ _ _ w3) as [[d|e] w4]; cbn;
    eexists; auto 10.
Qed.

(** X12: the router reports a completed upload exactly when an upload call
    returned a descriptor, and it reports that descriptor's name and
    id. *)
Theorem upload_file_to_box_reports_descriptor
  (source_file_path : string) (dest_file_name dest_folder_id : value)
  (w : W) (d : descriptor) :
  let tr := trace_of
    (upload_file_to_box source_file_path dest_file_name dest_folder_id w) in
  In (EPrint (MsgUploaded (desc_name d) (desc_id d))) tr <->
  Exists (uploaded_as d) tr.
Proof.
  destruct d as [n i]. cbn [desc_name desc_id].
  run_prog; split; intros H;
    repeat match goal with
    | H : _ \/ _ |- _ => destruct H as [H|H]
    | H : False |- _ => contradiction
    | H : EPrint _ = EPrint _ |- _ => injection H as H
    | H : _ = _ |- _ => discriminate H
    | H : Exists _ [] |- _ => inversion H
    | H : Exists _ (_ :: _) |- _ =>
        apply Exists_cons in H; cbn [uploaded_as] in H
    end.
  all: try match goal with
       | d : descriptor |- _ => destruct d as [n' i']; cbn in *
       end.
  all: repeat match goal with
       | H : ?x = ?y |- _ => first [subst x | subst y]
       | H : {| desc_name := _; desc_id := _ |} = _ |- _ =>
           injection H as ? ?
       end.
  all: try (repeat first [apply Exists_cons_hd; reflexivity
                         | apply Exists_cons_tl]; fail).
  all: try (cbn; auto 10; fail).
Qed.

End Handles.

(** ** Nothing to upload *)

Section Nothing.

Context {W : Type} {world : World W}.

Lemma traversal_of_no_files (dest_folder_id : value)
  (triples : list (string * list string * list string)) (w : W) :
  walked_paths triples = [] ->
  for_each triples (fun '(root, _, files) =>
    for_each files (upload_one root dest_folder_id)) w = (Ok tt, w, []).
Proof.
  induction triples as [|[[root dirs] files] l IH]; intros H; [reflexivity|].
  rewrite walked_paths_cons in H. apply app_eq_nil in H as [Hf Hl].
  apply map_eq_nil in Hf. subst files.
  cbn [for_each]. unfold bind at 1. unfold ret at 1.
  rewrite (IH Hl). reflexivity.
Qed.

(** X13: when the source folder is missing or is not a directory, or is a
    directory tree without a single file, the traversal only walks:
    it uploads nothing, prints nothing and returns normally. *)
Theorem upload_all_files_to_box_nothing_to_upload
  (source_folder : string) (dest_folder_id : value) (w : W) :
  match w_tree source_folder w with
  | Some (Dir es) => count_files (Dir es) = 0%nat
  | _ => True
  end ->
  upload_all_files_to_box source_folder dest_folder_id w =
  (Ok tt, w, [EWalk source_folder]).
Proof.
  intros H. unfold upload_all_files_to_box. unfold bind at 1.
  unfold walk at 1.
  rewrite traversal_of_no_files; [reflexivity|].
  destruct (w_tree source_folder w) as [[|es]|]; try reflexivity.
  rewrite walked_paths_os_walk.
  apply length_zero_iff_nil.
  rewrite length_file_paths; [exact H|reflexivity].
Qed.

End Nothing.

(** ** More on the camera flow *)

Lemma contains_sep_basename (p : string) : contains_sep (basename p) = false.
Proof.
  induction p as [|c r IH]; [reflexivity|].
  cbn [basename]. destruct (Ascii.eqb c sep) eqn:Hc; [exact IH|].
  destruct (contains_sep r) eqn:Hr; [exact IH|].
  cbn. rewrite Hc, Hr. reflexivity.
Qed.

Lemma starts_with_sep_no_sep (f : string) :
  contains_sep f = false -> starts_with_sep f = false.
Proof.
  destruct f as [|c r]; [reflexivity|]. cbn.
  destruct (Ascii.eqb c sep); [discriminate|reflexivity].
Qed.

(** The staged name is the path of the entry named after the camera file
    in the staging directory. *)
Lemma staged_name_join (camera_file : string) :
  staged_name camera_file = os_path_join "to_upload" (basename camera_file).
Proof.
  unfold os_path_join, staged_name.
  rewrite (starts_with_sep_no_sep _ (contains_sep_basename camera_file)).
  reflexivity.
Qed.

Lemma download_calls_app (t1 t2 : list event) :
  download_calls (t1 ++ t2) = download_calls t1 ++ download_calls t2.
Proof.
  induction t1 as [|e t1 IH]; [reflexivity|].
  destruct e; cbn; rewrite IH; reflexivity.
Qed.

Section MoreCamera.

Context {W : Type} {world : World W}.

Lemma download_one_trace (fs : media_item) (w : W) :
  exists r,
    r = fst (w_download_file (filename fs) (staged_name (filename fs)) w) /\
    trace_of (download_one fs w) =
      EPrint (MsgDownloading (filename fs) (staged_name (filename fs))) ::
      EDownloadFile (filename fs) (staged_name (filename fs)) r ::
      match r with
      | Ok _ => [EPrint (MsgDownloaded (staged_name (filename fs)))]
      | Raise _ => []
      end /\
    result_of (download_one fs w) = r.
Proof.
  unfold download_one, download_file, bind, call, print, emit,
    result_of, trace_of.
  rewrite last_piece_split_sep. fold (staged_name (filename fs)).
  destruct (w_download_file _ _ w) as [[[]|e] w1]; cbn; eauto.
Qed.

Lemma download_one_in_order (fs : media_item) :
  downloads_in_order (W:=W) [filename fs] (download_one fs).
Proof.
  intros w. destruct (download_one_trace fs w) as (r & _ & Ht & Hr).
  rewrite Hr, Ht. destruct r as [[]|e].
  - split; [reflexivity|]. repeat constructor; intros e H; exact H.
  - exists [], (filename fs), [],
      [EPrint (MsgDownloading (filename fs) (staged_name (filename fs)))].
    repeat split. repeat constructor. intros e' H; exact H.
Qed.

Lemma for_each_in_order {A : Type} (g : A -> list string) (l : list A)
  (body : A -> M (W:=W) unit) :
  (forall x, In x l -> downloads_in_order (g x) (body x)) ->
  downloads_in_order (List.concat (map g l)) (for_each l body).
Proof.
  induction l as [|x l IH]; intros Hbody w;
    [split; [reflexivity|constructor]|].
  cbn [for_each map List.concat]. rewrite bind_run.
  pose proof (Hbody x (or_introl eq_refl) w) as Hx.
  pose proof (IH (fun y Hy => Hbody y (or_intror Hy))
                 (world_of (body x w))) as Hl.
  destruct (body x w) as [[[[]|e] w1] t1];
    unfold result_of, world_of, trace_of in *; cbn [fst snd] in *.
  - destruct Hx as [Hx Hok].
    destruct (for_each l body w1) as [[[[]|e] w2] t2]; cbn [fst snd] in *.
    + destruct Hl as [Hl Hok'].
      rewrite download_calls_app, map_app, Hx, Hl.
      split; [reflexivity|]. apply Forall_app. split; assumption.
    + destruct Hl as (done & c & rest & pre & Hfiles & Hcalls & Ht & Hpre).
      exists (g x ++ done), c, rest, (t1 ++ pre).
      rewrite Hfiles, download_calls_app, Hx, Hcalls, Ht.
      rewrite <- !app_assoc, !map_app. repeat split.
      apply Forall_app. split; assumption.
  - destruct Hx as (done & c & rest & pre & Hfiles & Hcalls & Ht & Hpre).
    exists done, c, (rest ++ List.concat (map g l)), pre.
    rewrite Hfiles. rewrite <- app_assoc. repeat split; assumption.
Qed.

Lemma download_loop_in_order (media_list : list media_group) :
  downloads_in_order (W:=W) (manifest_files media_list)
    (for_each media_list (fun group =>
       for_each (file_system group) download_one)).
Proof.
  unfold manifest_files. apply for_each_in_order.
  intros group _. rewrite <- concat_map_singleton.
  apply for_each_in_order. intros fs _. apply download_one_in_order.
Qed.

Lemma download_loop_events (P : event -> Prop)
  (media_list : list media_group) (w : W) :
  (forall m, P (EPrint m)) ->
  (forall c r, P (EDownloadFile c (staged_name c) r)) ->
  Forall P
    (trace_of
       (for_each media_list (fun group =>
          for_each (file_system group) download_one) w)).
Proof.
  intros Hprint Hdl. revert w.
  apply for_each_events. intros group _.
  apply for_each_events. intros fs _ w.
  destruct (download_one_trace fs w) as (r & _ & Ht & _). rewrite Ht.
  constructor; [apply Hprint|]. constructor; [apply Hdl|].
  destruct r; repeat constructor; apply Hprint.
Qed.

(** The runs of [main], with the download loop as the run of the two
    nested loops from the world the manifest query left. *)
Lemma main_cases (w : W) :
  (exists e, trace_of (main w) = [EGoProOpen (Raise e)] /\
             result_of (main w) = Raise e) \/
  (exists e,
     trace_of (main w) =
       [EGoProOpen (Ok tt); EPrint MsgConnected; EGetMediaList (Raise e);
        EGoProClose] /\
     result_of (main w) = Raise e) \/
  (exists groups w2 tail,
     let loop :=
       for_each groups (fun group =>
         for_each (file_system group) download_one) w2 in
     trace_of (main w) =
       EGoProOpen (Ok tt) :: EPrint MsgConnected ::
       EGetMediaList (Ok groups) :: trace_of loop ++ tail /\
     ((exists e, result_of loop = Raise e /\ tail = [EGoProClose] /\
                 result_of (main w) = Raise e) \/
      (result_of loop = Ok tt /\
       tail = [EPrint MsgDeleting; EDeleteAll (Ok tt); EPrint MsgAllDeleted;
               EGoProClose] /\
       result_of (main w) = Ok tt) \/
      (exists e, result_of loop = Ok tt /\
       tail = [EPrint MsgDeleting; EDeleteAll (Raise e); EGoProClose] /\
       result_of (main w) = Raise e))).
Proof.
  remember (main w) as out eqn:Hout.
  unfold main, with_gopro, get_media_list, delete_all, finally, bind, call,
    print, emit in Hout.
  destruct (w_gopro_open w) as [[[]|e] w1];
    [|left; exists e; subst out; split; reflexivity].
  right.
  destruct (w_get_media_list w1) as [[groups|e] w2];
    [|left; exists e; subst out; split; reflexivity].
  right. exists groups, w2.
  destruct (for_each groups _ w2) as [[[[]|e] w3] loop].
  - destruct (w_delete_all w3) as [[[]|e] w4]; subst out;
      unfold trace_of, result_of; cbn [fst snd app].
    + eexists. split; [|right; left; repeat split].
      cbn. rewrite <- !app_assoc. reflexivity.
    + eexists. split; [|right; right; exists e; repeat split].
      cbn. rewrite <- !app_assoc. reflexivity.
  - subst out. unfold trace_of, result_of; cbn [fst snd app].
    eexists. split; [|left; exists e; repeat split]. reflexivity.
Qed.

End MoreCamera.

Section CameraProperties.

Context {W : Type} {world : World W}.

(** X14: the camera session is released whenever it was opened, also when the
    flow raises: the trace of [main] is the failed opening alone, or the
    opening, events that are neither an opening nor a release, and the
    release as its last event. *)
Theorem main_releases_session (w : W) :
  (exists e, trace_of (main w) = [EGoProOpen (Raise e)]) \/
  (exists body,
     trace_of (main w) = EGoProOpen (Ok tt) :: body ++ [EGoProClose] /\
     Forall (fun ev => is_session_event ev = false) body).
Proof.
  destruct (main_cases w) as
    [(e & Ht & _) | [(e & Ht & _) | (groups & w2 & tail & Ht & Htail)]].
  - left. eauto.
  - right. exists [EPrint MsgConnected; EGetMediaList (Raise e)].
    split; [exact Ht|repeat constructor].
  - right. cbv zeta in Ht, Htail.
    pose proof (download_loop_events
                  (fun ev => is_session_event ev = false) groups w2
                  (fun _ => eq_refl) (fun _ _ => eq_refl)) as Hloop.
    destruct Htail as [(e & _ & -> & _) | [(_ & -> & _) | (e & _ & -> & _)]].
    + eexists (_ :: _ :: _). split; [exact Ht|].
      repeat constructor. exact Hloop.
    + exists (EPrint MsgConnected :: EGetMediaList (Ok groups) ::
              trace_of
                (for_each groups (fun group =>
                   for_each (file_system group) download_one) w2) ++
              [EPrint MsgDeleting; EDeleteAll (Ok tt); EPrint MsgAllDeleted]).
      split; [rewrite Ht; cbn [app]; rewrite <- app_assoc; reflexivity|].
      repeat constructor. apply Forall_app. split; [exact Hloop|].
      repeat constructor.
    + exists (EPrint MsgConnected :: EGetMediaList (Ok groups) ::
              trace_of
                (for_each groups (fun group =>
                   for_each (file_system group) download_one) w2) ++
              [EPrint MsgDeleting; EDeleteAll (Raise e)]).
      split; [rewrite Ht; cbn [app]; rewrite <- app_assoc; reflexivity|].
      repeat constructor. apply Forall_app. split; [exact Hloop|].
      repeat constructor.
Qed.

(** X15: every download of [main] puts its file under "to_upload/" followed by
    the base name of the camera file, so directly in the staging
    directory whatever directory the camera file is in; the base name of
    the staged file is the base name of the camera file. *)
Theorem main_stages_downloads (w : W) (camera_file : string) :
  Forall download_staged (trace_of (main w)) /\
  basename (staged_name camera_file) = basename camera_file /\
  contains_sep (basename camera_file) = false.
Proof.
  split; [|split].
  - destruct (main_cases w) as
      [(e & Ht & _) | [(e & Ht & _) | (groups & w2 & tail & Ht & Htail)]];
      rewrite Ht; [repeat constructor..|].
    cbv zeta in Htail.
    repeat constructor. apply Forall_app. split.
    + apply download_loop_events; [intros m; exact I|].
      intros c r. reflexivity.
    + destruct Htail as [(e & _ & -> & _) | [(_ & -> & _) | (e & _ & -> & _)]];
        repeat constructor.
  - rewrite staged_name_join.
    apply basename_join, contains_sep_basename.
  - apply contains_sep_basename.
Qed.

(** X16: a failed download ends the flow: [main] raises its exception, and
    the failed call is the last thing sent to the camera, followed only
    by the release of the session; no download before it failed. *)
Theorem main_stops_at_failed_download
  (w : W) (camera_file local_file : string) (e : exn) :
  In (EDownloadFile camera_file local_file (Raise e)) (trace_of (main w)) ->
  result_of (main w) = Raise e /\
  exists pre,
    trace_of (main w) =
      pre ++ [EDownloadFile camera_file local_file (Raise e); EGoProClose] /\
    Forall (fun ev => forall e', ~ acquisition_failed e' ev) pre.
Proof.
  intros Hin.
  destruct (main_cases w) as
    [(e0 & Ht & _) | [(e0 & Ht & _) | (groups & w2 & tail & Ht & Htail)]].
  - rewrite Ht in Hin. destruct Hin as [H|[]]. discriminate.
  - rewrite Ht in Hin.
    repeat (destruct Hin as [Hin|Hin]; [discriminate|]). destruct Hin.
  - cbv zeta in Ht, Htail.
    pose proof (download_loop_in_order groups w2) as Hord.
    rewrite Ht in Hin.
    repeat (destruct Hin as [Hin|Hin]; [discriminate|]).
    apply in_app_or in Hin.
    destruct Htail as [(e0 & Hr & -> & Hres) | [(Hr & -> & _) | (e0 & Hr & -> & _)]];
      rewrite Hr in Hord.
    + destruct Hord as (done & c & rest & pre & _ & _ & Hloop & Hpre).
      rewrite Hloop in Hin, Ht.
      assert (Hev : EDownloadFile camera_file local_file (Raise e) =
                    EDownloadFile c (staged_name c) (Raise e0)).
      { destruct Hin as [Hin|[Hin|[]]]; [|discriminate].
        apply in_app_or in Hin as [Hin|[Hin|[]]]; [|congruence].
        rewrite Forall_forall in Hpre. destruct (Hpre _ Hin e eq_refl). }
      injection Hev as -> -> ->.
      split; [exact Hres|].
      exists (EGoProOpen (Ok tt) :: EPrint MsgConnected ::
              EGetMediaList (Ok groups) :: pre).
      split; [rewrite Ht; cbn [app]; rewrite <- app_assoc; reflexivity|].
      repeat constructor; try (intros e' H; exact H). exact Hpre.
    + destruct Hord as [_ Hok]. exfalso.
      destruct Hin as [Hin|Hin].
      * rewrite Forall_forall in Hok. exact (Hok _ Hin e eq_refl).
      * repeat (destruct Hin as [Hin|Hin]; [discriminate|]). destruct Hin.
    + destruct Hord as [_ Hok]. exfalso.
      destruct Hin as [Hin|Hin].
      * rewrite Forall_forall in Hok. exact (Hok _ Hin e eq_refl).
      * repeat (destruct Hin as [Hin|Hin]; [discriminate|]). destruct Hin.
Qed.

(** X17: [main] returns normally exactly when the bulk delete returned; when
    the bulk delete raises, [main] raises that exception; and whenever
    the bulk delete was issued, the download calls made are those of all
    the manifest's files, in the manifest's order, each to its staged
    name. *)
Theorem main_returns_after_delete (w : W) :
  (result_of (main w) = Ok tt <->
   In (EDeleteAll (Ok tt)) (trace_of (main w))) /\
  (forall e,
     In (EDeleteAll (Raise e)) (trace_of (main w)) ->
     result_of (main w) = Raise e) /\
  (forall r,
     In (EDeleteAll r) (trace_of (main w)) ->
     exists groups,
       In (EGetMediaList (Ok groups)) (trace_of (main w)) /\
       download_calls (trace_of (main w)) =
       map (fun f => (f, staged_name f)) (manifest_files groups)).
Proof.
  assert (Hnodel : forall groups (w2 : W) r,
    ~ In (EDeleteAll r)
         (trace_of
            (for_each groups (fun group =>
               for_each (file_system group) download_one) w2))).
  { intros groups w2 r Hin.
    pose proof (download_loop_events
                  (fun ev => is_delete ev = false) groups w2
                  (fun _ => eq_refl) (fun _ _ => eq_refl)) as Hloop.
    rewrite Forall_forall in Hloop. specialize (Hloop _ Hin).
    discriminate. }
  destruct (main_cases w) as
    [(e0 & Ht & Hr) | [(e0 & Ht & Hr) | (groups & w2 & tail & Ht & Htail)]].
  - rewrite Ht, Hr. repeat split.
    + discriminate.
    + intros [H|[]]; discriminate.
    + intros e [H|[]]; discriminate.
    + intros r [H|[]]; discriminate.
  - rewrite Ht, Hr. repeat split.
    + discriminate.
    + intros H; repeat (destruct H as [H|H]; [discriminate|]); destruct H.
    + intros e H; repeat (destruct H as [H|H]; [discriminate|]); destruct H.
    + intros r H; repeat (destruct H as [H|H]; [discriminate|]); destruct H.
  - cbv zeta in Ht, Htail.
    pose proof (download_loop_in_order groups w2) as Hord.
    assert (Hsplit : forall r,
      In (EDeleteAll r) (trace_of (main w)) -> In (EDeleteAll r) tail).
    { intros r H. rewrite Ht in H.
      repeat (destruct H as [H|H]; [discriminate|]).
      apply in_app_or in H as [H|H]; [destruct (Hnodel _ _ _ H)|exact H]. }
    destruct Htail as
      [(e0 & Hr & -> & Hres) | [(Hr & -> & Hres) | (e0 & Hr & -> & Hres)]];
      rewrite Hr in Hord; rewrite Hres.
    + repeat split.
      * discriminate.
      * intros H. apply Hsplit in H.
        repeat (destruct H as [H|H]; [discriminate|]). destruct H.
      * intros e H. apply Hsplit in H.
        repeat (destruct H as [H|H]; [discriminate|]). destruct H.
      * intros r H. apply Hsplit in H.
        repeat (destruct H as [H|H]; [discriminate|]). destruct H.
    + destruct Hord as [Hcalls _]. repeat split.
      * intros _. rewrite Ht. right. right. right.
        apply in_or_app. right. right. left. reflexivity.
      * intros e H. apply Hsplit in H.
        repeat (destruct H as [H|H]; [discriminate|]). destruct H.
      * intros r _. exists groups. split.
        -- rewrite Ht. right. right. left. reflexivity.
        -- rewrite Ht. cbn [download_calls].
           rewrite download_calls_app, Hcalls. cbn. apply app_nil_r.
    + destruct Hord as [Hcalls _]. repeat split.
      * discriminate.
      * intros H. apply Hsplit in H.
        repeat (destruct H as [H|H]; [discriminate|]). destruct H.
      * intros e H. apply Hsplit in H.
        destruct H as [H|[H|[H|[]]]]; try discriminate. congruence.
      * intros r _. exists groups. split.
        -- rewrite Ht. right. right. left. reflexivity.
        -- rewrite Ht. cbn [download_calls].
           rewrite download_calls_app, Hcalls. cbn. apply app_nil_r.
Qed.

(** X18: from camera to storage: the traversal's upload of the staging
    directory's entry named after a camera file reads the file [main]
    staged for it and gives it the camera file's base name as remote
    name. *)
Theorem staged_file_keeps_camera_name
  (camera_file : string) (dest_folder_id : value) (w : W) :
  Forall (fun e => upload_named (VStr (basename camera_file)) e /\
                   upload_from (staged_name camera_file) e)
    (trace_of
       (upload_one "to_upload" dest_folder_id (basename camera_file) w)).
Proof.
  pose proof (contains_sep_basename camera_file) as Hsep.
  pose proof (upload_one_named_after_file "to_upload"
                (basename camera_file) dest_folder_id w Hsep) as Hname.
  assert (Hfrom : Forall (upload_from (staged_name camera_file))
            (trace_of
               (upload_one "to_upload" dest_folder_id
                  (basename camera_file) w))).
  { apply upload_one_events; [intros m; exact I|].
    rewrite <- staged_name_join.
    eapply Forall_impl; [|apply upload_file_to_box_target].
    intros ev [_ H]. exact H. }
  rewrite Forall_forall in *. intros ev Hin.
  specialize (Hname _ Hin). specialize (Hfrom _ Hin).
  unfold named_after_file, upload_named, upload_from in *.
  destruct (upload_args ev) as [[[n p] f]|]; [|split; exact I].
  split; [|exact Hfrom]. subst f n.
  rewrite staged_name_join.
  rewrite (basename_join _ _ Hsep). reflexivity.
Qed.

End CameraProperties.

(** ** More scenarios *)

Lemma Box_init_authentication_failure_witness :
  Box_init (world := sim_world staging) (fun _ => VNone) None None None tt =
  (Raise (Exception "invalid_client"), tt,
   [ECCGAuth VNone VNone VNone (Raise (Exception "invalid_client"));
    EPrint (MsgAuthError (Exception "invalid_client"))]).
Proof.
  apply (Box_init_authentication_failure (world := sim_world staging)
           (fun _ => VNone) None None None tt tt
           (Exception "invalid_client")).
  reflexivity.
Defined.

Lemma Box_init_instance_witness :
  exists self,
    result_of
      (Box_init (world := sim_world staging) credentials_set
         None None None tt) = Ok self /\
    client self = Some tt /\
    auth self = Some tt /\
    videos_folder_box_id self = "303832684570"%string.
Proof.
  eexists. split; [reflexivity|].
  destruct (Box_init_instance (world := sim_world staging) credentials_set
              None None None tt _ eq_refl) as (H1 & H2 & H3 & _).
  exact (conj H1 (conj H2 H3)).
Defined.

Lemma script_authentication_failure_witness :
  script (world := sim_world staging) (fun _ => VNone) tt =
  (Raise (Exception "invalid_client"), tt,
   [ECCGAuth VNone VNone VNone (Raise (Exception "invalid_client"));
    EPrint (MsgAuthError (Exception "invalid_client"))]).
Proof.
  apply (script_authentication_failure (world := sim_world staging)
           (fun _ => VNone) tt tt (Exception "invalid_client")).
  reflexivity.
Defined.

Lemma script_uploads_staging_directory_witness :
  result_of (script (world := sim_world staging) credentials_set tt) =
    Ok tt /\
  upload_calls
    (trace_of (script (world := sim_world staging) credentials_set tt)) =
  [("to_upload/a.mp4"%string, VStr "303832684570");
   ("to_upload/big.mp4"%string, VStr "303832684570");
   ("to_upload/empty.bin"%string, VStr "303832684570");
   ("to_upload/trip/b.mp4"%string, VStr "303832684570")].
Proof.
  destruct (script_uploads_staging_directory (world := sim_world staging)
              credentials_set tt tt eq_refl) as (Hr & _ & Htree).
  split; [exact Hr|].
  apply (proj2 (Htree [("a.mp4"%string, File);
                       ("big.mp4"%string, File);
                       ("trip"%string, Dir [("b.mp4"%string, File)]);
                       ("empty.bin"%string, File)] eq_refl)).
  repeat first [apply Forall_cons | apply Forall_nil]; cbn.
  - exists 1024. split; intros w; reflexivity.
  - exists 20971520. split; intros w; reflexivity.
  - exists 0. split; intros w; reflexivity.
  - exists 20971519. split; intros w; reflexivity.
Defined.

Lemma upload_file_to_box_raises_only_from_size_query_witness :
  trace_of
    (upload_file_to_box (world := sim_world staging)
       "to_upload/missing.mp4" (VStr "missing.mp4") (VStr "0") tt) =
    [EGetSize "to_upload/missing.mp4"
       (Raise (no_such_file "to_upload/missing.mp4"))] \/
  exists size,
    20 * 1024 * 1024 <= size /\
    trace_of
      (upload_file_to_box (world := sim_world staging)
         "to_upload/missing.mp4" (VStr "missing.mp4") (VStr "0") tt) =
    [EGetSize "to_upload/missing.mp4" (Ok size);
     EGetSize "to_upload/missing.mp4"
       (Raise (no_such_file "to_upload/missing.mp4"))].
Proof.
  apply (upload_file_to_box_raises_only_from_size_query
           (world := sim_world staging)
           "to_upload/missing.mp4" (VStr "missing.mp4") (VStr "0") tt
           (no_such_file "to_upload/missing.mp4")).
  reflexivity.
Defined.

Lemma upload_small_file_to_folder_outcome_witness :
  exists e,
    trace_of
      (upload_small_file_to_folder (world := sim_world offline)
         "to_upload/a.mp4" None None tt) =
      [EOpen "to_upload/a.mp4" "rb" (Raise e);
       EPrint (MsgFailedUpload "to_upload/a.mp4" e)] \/
    exists name parent,
      trace_of
        (upload_small_file_to_folder (world := sim_world offline)
           "to_upload/a.mp4" None None tt) =
        [EOpen "to_upload/a.mp4" "rb" (Ok tt);
         EUploadFile name parent "to_upload/a.mp4" (Raise e);
         EClose "to_upload/a.mp4";
         EPrint (MsgFailedUpload "to_upload/a.mp4" e)].
Proof.
  apply (proj2 (upload_small_file_to_folder_outcome
                  (world := sim_world offline)
                  "to_upload/a.mp4" None None tt)).
  reflexivity.
Defined.

Lemma upload_file_to_box_declares_file_size_witness :
  exists r,
    In (EUploadBigFile "to_upload/big.mp4" (VStr "big.mp4") 20971520
          (VStr "0") r)
       (trace_of
          (upload_file_to_box (world := sim_world staging)
             "to_upload/big.mp4" (VStr "big.mp4") (VStr "0") tt)).
Proof.
  apply (upload_file_to_box_declares_file_size (world := sim_world staging)
           "to_upload/big.mp4" (VStr "big.mp4") (VStr "0") 20971520 tt).
  - apply readable_in_staging. reflexivity.
  - lia.
Defined.

Lemma upload_file_to_box_reports_descriptor_witness :
  In (EPrint (MsgUploaded "a.mp4" "1"))
     (trace_of
        (upload_file_to_box (world := sim_world staging)
           "to_upload/a.mp4" (VStr "a.mp4") (VStr "0") tt)).
Proof.
  apply (proj2 (upload_file_to_box_reports_descriptor
                  (world := sim_world staging)
                  "to_upload/a.mp4" (VStr "a.mp4") (VStr "0") tt
                  {| desc_name := "a.mp4"; desc_id := "1" |})).
  vm_compute. right. right. right. left. reflexivity.
Defined.

Lemma upload_all_files_to_box_nothing_to_upload_witness :
  upload_all_files_to_box
    (world := sim_world {| sim_files := []; sim_tree := None;
                           sim_online := true; sim_media := Ok [];
                           sim_unreadable := [] |})
    "to_upload" (VStr "303832684570") tt =
  (Ok tt, tt, [EWalk "to_upload"]).
Proof.
  apply (upload_all_files_to_box_nothing_to_upload
           (world := sim_world {| sim_files := []; sim_tree := None;
                                  sim_online := true; sim_media := Ok [];
                                  sim_unreadable := [] |})
           "to_upload" (VStr "303832684570") tt).
  exact I.
Defined.

Lemma main_stops_at_failed_download_witness :
  result_of (main (world := sim_world flaky_camera) tt) =
    Raise connection_error /\
  exists pre,
    trace_of (main (world := sim_world flaky_camera) tt) =
      pre ++ [EDownloadFile "100GOPRO/GX010002.MP4" "to_upload/GX010002.MP4"
                (Raise connection_error);
              EGoProClose] /\
    Forall (fun ev => forall e', ~ acquisition_failed e' ev) pre.
Proof.
  apply (main_stops_at_failed_download (world := sim_world flaky_camera) tt
           "100GOPRO/GX010002.MP4" "to_upload/GX010002.MP4"
           connection_error).
  vm_compute. tauto.
Defined.

Lemma main_returns_after_delete_witness :
  result_of (main (world := sim_world staging) tt) = Ok tt.
Proof.
  apply (proj2 (proj1 (main_returns_after_delete
                         (world := sim_world staging) tt))).
  vm_compute. tauto.
Defined.
